(** * flashlight: certificate bootstrap and the interception tunnel

    A shallow embedding of [initCerts], [certificateFor], [handleClientMITM],
    [respondBadGateway] and [pipe] of flashlight's [main] package, together
    with the properties of the specification that concern them.

    Go's standard library and the [keyman] package are not part of the
    repository; the small parts of them the program relies on are modelled
    in the modules [time], [x509] and [keyman] below. *)

From Stdlib Require Import ZArith Lia Ascii String.
From stdpp Require Import base option list strings gmap.

Local Open Scope Z_scope.

(** ** Package [time]: instants, as nanoseconds since the Unix epoch (UTC) *)

Module time.

Definition Time : Type := Z.

Definition nsPerSecond : Z := 1000000000.
Definition secondsPerDay : Z := 86400.

(** [t.Nanosecond()]: the offset within the second, in [0, 999999999]. *)
Definition Nanosecond (t : Time) : Z := t mod nsPerSecond.

(** [t.Before(u)] *)
Definition Before (t u : Time) : bool := t <? u.

(** Days since 1970-01-01 of a proleptic Gregorian date; the month is in
    [1, 12], the day may lie outside of the month and then overflows into
    the following ones, as in Go's [time.Date]. *)
Definition daysFromCivil (y m d : Z) : Z :=
  let y' := if m <=? 2 then y - 1 else y in
  let era := y' / 400 in
  let yoe := y' - era * 400 in
  let mp := if 2 <? m then m - 3 else m + 9 in
  let doy := (153 * mp + 2) / 5 + d - 1 in
  let doe := yoe * 365 + yoe / 4 - yoe / 100 + doy in
  era * 146097 + doe - 719468.

Definition civilFromDays (z : Z) : Z * Z * Z :=
  let z' := z + 719468 in
  let era := z' / 146097 in
  let doe := z' - era * 146097 in
  let yoe := (doe - doe / 1460 + doe / 36524 - doe / 146096) / 365 in
  let doy := doe - (365 * yoe + yoe / 4 - yoe / 100) in
  let mp := (5 * doy + 2) / 153 in
  let d := doy - (153 * mp + 2) / 5 + 1 in
  let m := if mp <? 10 then mp + 3 else mp - 9 in
  ((if m <=? 2 then yoe + era * 400 + 1 else yoe + era * 400), m, d).

(** [t.AddDate(years, months, days)]: the date is taken apart, the
    arguments are added field by field and the result is normalised. *)
Definition AddDate (years months days : Z) (t : Time) : Time :=
  let secs := t / nsPerSecond in
  let '(y, m, d) := civilFromDays (secs / secondsPerDay) in
  let m0 := m - 1 + months in
  let day := daysFromCivil (y + years + m0 / 12) (m0 mod 12 + 1) 1 + (d - 1) + days in
  (day * secondsPerDay + secs mod secondsPerDay) * nsPerSecond + t mod nsPerSecond.

End time.

(** ** Package [crypto/x509]: the fields of a certificate the program sets *)

Module x509.

(** [KeyUsage] is a bit set. *)
Definition KeyUsageDigitalSignature : Z := Z.shiftl 1 0.
Definition KeyUsageContentCommitment : Z := Z.shiftl 1 1.
Definition KeyUsageKeyEncipherment : Z := Z.shiftl 1 2.
Definition KeyUsageDataEncipherment : Z := Z.shiftl 1 3.
Definition KeyUsageKeyAgreement : Z := Z.shiftl 1 4.
Definition KeyUsageCertSign : Z := Z.shiftl 1 5.
Definition KeyUsageCRLSign : Z := Z.shiftl 1 6.

Inductive ExtKeyUsage : Type :=
| ExtKeyUsageAny
| ExtKeyUsageServerAuth
| ExtKeyUsageClientAuth
| ExtKeyUsageCodeSigning.

(** [pkix.Name] *)
Record Name : Type := {
  Organization : list string;
  CommonName : string
}.

Record Certificate : Type := {
  SerialNumber : Z;
  Subject : Name;
  NotBefore : time.Time;
  NotAfter : time.Time;
  BasicConstraintsValid : bool;
  KeyUsage : Z;
  ExtKeyUsages : list ExtKeyUsage;
  IsCA : bool
}.

Definition withKeyUsage (ku : Z) (c : Certificate) : Certificate :=
  {| SerialNumber := SerialNumber c; Subject := Subject c;
     NotBefore := NotBefore c; NotAfter := NotAfter c;
     BasicConstraintsValid := BasicConstraintsValid c;
     KeyUsage := ku; ExtKeyUsages := ExtKeyUsages c; IsCA := IsCA c |}.

Definition withExtKeyUsage (eku : list ExtKeyUsage) (c : Certificate) : Certificate :=
  {| SerialNumber := SerialNumber c; Subject := Subject c;
     NotBefore := NotBefore c; NotAfter := NotAfter c;
     BasicConstraintsValid := BasicConstraintsValid c;
     KeyUsage := KeyUsage c; ExtKeyUsages := eku; IsCA := IsCA c |}.

Definition withIsCA (b : bool) (c : Certificate) : Certificate :=
  {| SerialNumber := SerialNumber c; Subject := Subject c;
     NotBefore := NotBefore c; NotAfter := NotAfter c;
     BasicConstraintsValid := BasicConstraintsValid c;
     KeyUsage := KeyUsage c; ExtKeyUsages := ExtKeyUsages c; IsCA := b |}.

End x509.

(** ** Package [keyman]: keys and certificates with their files *)

Module keyman.

(** An RSA key pair; [material] stands for the key itself. *)
Record PrivateKey : Type := {
  bits : Z;
  material : Z
}.

(** A signed certificate: the signed fields, the certificate of the issuer
    ([None] for a self-signed certificate, which is its own issuer) and
    the key that signed it. *)
Record Certificate : Type := {
  X509 : x509.Certificate;
  issuer : option x509.Certificate;
  signedWith : PrivateKey
}.

End keyman.

(** ** The process and its surroundings *)

(** What a file of the configuration directory holds. *)
Inductive File : Type :=
| PKFile (k : keyman.PrivateKey)
| CertFile (c : keyman.Certificate)
| Unreadable.

(** Go's [error], by its message. *)
Definition error : Type := string.

(** Calls that leave the process, in the order they are made. *)
Inductive Event : Type :=
| EvLog (msg : string)
| EvGeneratePK (nbits : Z)
| EvCertificateFor (name : string) (validUntil : time.Time) (isCA : bool)
    (issuer : option keyman.Certificate)
| EvWriteFile (path : string) (f : File)
| EvAddAsTrustedRoot (c : keyman.Certificate).

(** What the program does not control: the clock (the reading of the [k]-th
    call of [time.Now]), which of the fallible operations fail, and what a
    write that fails leaves at its path, given what the path held ([None]
    is no file). *)
Record Env : Type := {
  now : nat -> time.Time;
  generatedKey : Z -> keyman.PrivateKey + error;
  writeError : string -> option error;
  failedWrite : string -> option File -> option File;
  signError : x509.Certificate -> option error;
  trustError : option error
}.

(** The command line flags and what the platform fixes. *)
Record Flags : Type := {
  help : bool;
  addr : string;
  upstreamHost : string;
  upstreamPort : Z;
  masqueradeAs : string;
  configDir : string;
  PathSeparator : ascii
}.

(** The file system, the trust store of the user, the clock's position, the
    events so far, and the package variables [pk], [caCert] and [serverCert]
    ([None] is Go's [nil]). *)
Record State : Type := {
  files : gmap string File;
  trustStore : list keyman.Certificate;
  ticks : nat;
  trace : list Event;
  pk : option keyman.PrivateKey;
  caCert : option keyman.Certificate;
  serverCert : option keyman.Certificate
}.

Definition withFiles (fs : gmap string File) (s : State) : State :=
  {| files := fs; trustStore := trustStore s; ticks := ticks s; trace := trace s;
     pk := pk s; caCert := caCert s; serverCert := serverCert s |}.

Definition withTrustStore (ts : list keyman.Certificate) (s : State) : State :=
  {| files := files s; trustStore := ts; ticks := ticks s; trace := trace s;
     pk := pk s; caCert := caCert s; serverCert := serverCert s |}.

Definition withTicks (n : nat) (s : State) : State :=
  {| files := files s; trustStore := trustStore s; ticks := n; trace := trace s;
     pk := pk s; caCert := caCert s; serverCert := serverCert s |}.

Definition withTrace (tr : list Event) (s : State) : State :=
  {| files := files s; trustStore := trustStore s; ticks := ticks s; trace := tr;
     pk := pk s; caCert := caCert s; serverCert := serverCert s |}.

Definition withPk (k : option keyman.PrivateKey) (s : State) : State :=
  {| files := files s; trustStore := trustStore s; ticks := ticks s; trace := trace s;
     pk := k; caCert := caCert s; serverCert := serverCert s |}.

Definition withCaCert (c : option keyman.Certificate) (s : State) : State :=
  {| files := files s; trustStore := trustStore s; ticks := ticks s; trace := trace s;
     pk := pk s; caCert := c; serverCert := serverCert s |}.

Definition withServerCert (c : option keyman.Certificate) (s : State) : State :=
  {| files := files s; trustStore := trustStore s; ticks := ticks s; trace := trace s;
     pk := pk s; caCert := caCert s; serverCert := c |}.

(** *** Computations: a value, an early [return] of the enclosing function
    with its [err] result, or a run-time panic *)

Inductive result (A : Type) : Type :=
| Val (a : A) (s : State)
| Return (err : option error) (s : State)
| Panic (s : State).

Arguments Val {A} a s.
Arguments Return {A} err s.
Arguments Panic {A} s.

Definition M (A : Type) : Type := State -> result A.

#[export] Instance go_ret : MRet M := fun A a s => Val a s.

#[export] Instance go_bind : MBind M := fun A B k m s =>
  match m s with
  | Val a s' => k a s'
  | Return e s' => Return e s'
  | Panic s' => Panic s'
  end.

Definition get : M State := fun s => Val s s.
Definition modify (f : State -> State) : M unit := fun s => Val tt (f s).
Definition emit (e : Event) : M unit := modify (fun s => withTrace (trace s ++ [e]) s).
Definition panic {A : Type} : M A := fun s => Panic s.

(** [if err != nil { return }] *)
Definition returnIfErr (err : option error) : M unit :=
  fun s => match err with Some e => Return (Some e) s | None => Val tt s end.

(** [if cond { body }] *)
Definition when (cond : bool) (body : M unit) : M unit :=
  if cond then body else mret tt.

(** *** [time.Now] and [log] *)

Definition Now (env : Env) : M time.Time :=
  fun s => Val (now env (ticks s)) (withTicks (S (ticks s)) s).

Definition Printf (msg : string) : M unit := emit (EvLog msg).

(** *** The operations of [keyman]

    The package is a library of its own; its operations are modelled by what
    the program can tell of them: a file holds a key, a certificate or
    neither, and generating, signing, writing and trusting succeed or fail as
    the surroundings decide.  The wording of its error messages plays no
    part. *)

(** [keyman.LoadPKFromFile(path)] *)
Definition LoadPKFromFile (path : string) : M (option keyman.PrivateKey * option error) :=
  s ← get;
  mret (match files s !! path with
        | Some (PKFile k) => (Some k, None)
        | Some _ => (None, Some ("Unable to decode PEM encoded private key data: " +:+ path))
        | None => (None, Some ("Unable to read file: " +:+ path))
        end).

(** [keyman.LoadCertificateFromFile(path)] *)
Definition LoadCertificateFromFile (path : string)
  : M (option keyman.Certificate * option error) :=
  s ← get;
  mret (match files s !! path with
        | Some (CertFile c) => (Some c, None)
        | Some _ => (None, Some ("Unable to decode PEM encoded certificate: " +:+ path))
        | None => (None, Some ("Unable to read file: " +:+ path))
        end).

(** [keyman.GeneratePK(bits)] *)
Definition GeneratePK (env : Env) (nbits : Z) : M (option keyman.PrivateKey * option error) :=
  emit (EvGeneratePK nbits);;
  mret (match generatedKey env nbits with
        | inl k => (Some k, None)
        | inr e => (None, Some e)
        end).

(** [WriteToFile(path)] of a key or of a certificate.  A write that
    succeeds leaves [f] at [path].  A write that fails may have created,
    truncated or half written the file before it failed: what it leaves at
    [path] is for the surroundings to say; no other path is touched. *)
Definition WriteToFile (env : Env) (path : string) (f : File) : M (option error) :=
  emit (EvWriteFile path f);;
  match writeError env path with
  | Some e =>
      modify (fun s => withFiles (partial_alter (failedWrite env path) path (files s)) s);;
      mret (Some e)
  | None => modify (fun s => withFiles (<[path := f]> (files s)) s);; mret None
  end.

(** [key.Certificate(template, issuer)]: the template signed with [key]; with
    no issuer the certificate is its own issuer. *)
Definition Certificate (env : Env) (key : keyman.PrivateKey)
    (template : x509.Certificate) (issuer : option keyman.Certificate)
  : M (option keyman.Certificate * option error) :=
  mret (match signError env template with
        | Some e => (None, Some e)
        | None =>
            (Some {| keyman.X509 := template;
                     keyman.issuer := keyman.X509 <$> issuer;
                     keyman.signedWith := key |}, None)
        end).

(** [cert.AddAsTrustedRoot()] *)
Definition AddAsTrustedRoot (env : Env) (c : keyman.Certificate) : M (option error) :=
  emit (EvAddAsTrustedRoot c);;
  match trustError env with
  | Some e => mret (Some e)
  | None => modify (fun s => withTrustStore (trustStore s ++ [c]) s);; mret None
  end.

(** Following a pointer held in a package variable: [nil] panics. *)
Definition deref {A : Type} (field : State -> option A) : M A :=
  s ← get;
  match field s with
  | Some a => mret a
  | None => panic
  end.

(** ** The package variables of [main] *)

Record Globals : Type := {
  flags : Flags;
  TOMORROW : time.Time;
  ONE_MONTH_FROM_TODAY : time.Time;
  ONE_YEAR_FROM_TODAY : time.Time;
  TEN_YEARS_FROM_TODAY : time.Time
}.

Definition isDownstream (g : Globals) : bool :=
  negb (String.eqb (upstreamHost (flags g)) "").

Definition isUpstream (g : Globals) : bool := negb (isDownstream g).

(** [inConfigDir]: the path of a file of the configuration directory.
    (Directories are not part of the model of the file system, so that the
    creation of a missing [configDir] leaves no mark on it.) *)
Definition inConfigDir (fl : Flags) (filename : string) : string :=
  if String.eqb (configDir fl) "" then filename
  else configDir fl +:+ String (PathSeparator fl) filename.

Definition PK_FILE (g : Globals) : string := inConfigDir (flags g) "proxypk.pem".
Definition CA_CERT_FILE (g : Globals) : string := inConfigDir (flags g) "cacert.pem".
Definition SERVER_CERT_FILE (g : Globals) : string := inConfigDir (flags g) "servercert.pem".

(** The initialisation of the four dates, each from the clock. *)
Definition initGlobals (env : Env) (fl : Flags) : M Globals :=
  t1 ← Now env;
  t2 ← Now env;
  t3 ← Now env;
  t4 ← Now env;
  mret {| flags := fl;
          TOMORROW := time.AddDate 0 0 1 t1;
          ONE_MONTH_FROM_TODAY := time.AddDate 0 1 0 t2;
          ONE_YEAR_FROM_TODAY := time.AddDate 1 0 0 t3;
          TEN_YEARS_FROM_TODAY := time.AddDate 10 0 0 t4 |}.

(** ** [certificateFor] *)

(** The template of [certificateFor], from the two readings of the clock. *)
Definition template (name : string) (validUntil : time.Time) (isCA : bool)
    (issuer : option keyman.Certificate) (t1 t2 : time.Time) : x509.Certificate :=
  let template :=
    {| x509.SerialNumber := time.Nanosecond t1;
       x509.Subject := {| x509.Organization := ["Lantern"]; x509.CommonName := name |};
       x509.NotBefore := time.AddDate 0 (-1) 0 t2;
       x509.NotAfter := validUntil;
       x509.BasicConstraintsValid := true;
       x509.KeyUsage := Z.lor x509.KeyUsageKeyEncipherment x509.KeyUsageDigitalSignature;
       x509.ExtKeyUsages := [];
       x509.IsCA := false |} in
  match issuer with
  | None =>
      let template :=
        if isCA
        then x509.withKeyUsage (Z.lor (x509.KeyUsage template) x509.KeyUsageCertSign) template
        else template in
      let template := x509.withExtKeyUsage [x509.ExtKeyUsageServerAuth] template in
      x509.withIsCA true template
  | Some _ => template
  end.

Definition certificateFor (env : Env) (name : string) (validUntil : time.Time)
    (isCA : bool) (issuer : option keyman.Certificate)
  : M (option keyman.Certificate * option error) :=
  emit (EvCertificateFor name validUntil isCA issuer);;
  t1 ← Now env;
  t2 ← Now env;
  key ← deref pk;
  Certificate env key (template name validUntil isCA issuer t1 t2) issuer.

(** ** [initCerts] *)

Definition isErr (err : option error) : bool :=
  match err with Some _ => true | None => false end.

(** [caCert.X509().NotAfter.Before(ONE_MONTH_FROM_TODAY)] *)
Definition caCertExpires (g : Globals) : M bool :=
  c ← deref caCert;
  mret (time.Before (x509.NotAfter (keyman.X509 c)) (ONE_MONTH_FROM_TODAY g)).

(** [a || b], where [b] is only evaluated when [a] is false. *)
Definition orElse (a : bool) (b : M bool) : M bool :=
  if a then mret true else b.

(** The three parts of the body of [initCerts], in their order: the private
    key, the CA certificate, and (in a server proxy) the server certificate.
    The second leaves the value of [err] to the third, which [initCerts]
    returns at its end. *)

Definition initCerts_pk (env : Env) (g : Globals) : M unit :=
  '(k, err) ← LoadPKFromFile (PK_FILE g);
  modify (withPk k);;
  when (isErr err) (
    Printf ("Creating new PK at: " +:+ PK_FILE g);;
    '(k, err) ← GeneratePK env 2048;
    modify (withPk k);;
    returnIfErr err;;
    key ← deref pk;
    err ← WriteToFile env (PK_FILE g) (PKFile key);
    returnIfErr err).

Definition initCerts_caCert (env : Env) (g : Globals) : M (option error) :=
  '(c, err) ← LoadCertificateFromFile (CA_CERT_FILE g);
  modify (withCaCert c);;
  renew ← orElse (isErr err) (caCertExpires g);
  if renew : bool then
    Printf ("Creating new self-signed CA cert at: " +:+ CA_CERT_FILE g);;
    '(c, err) ← certificateFor env "Lantern" (TEN_YEARS_FROM_TODAY g) true None;
    modify (withCaCert c);;
    returnIfErr err;;
    ca ← deref caCert;
    err ← WriteToFile env (CA_CERT_FILE g) (CertFile ca);
    returnIfErr err;;
    if isDownstream g then
      Printf "Adding issuing cert to user trust store as trusted root";;
      ca ← deref caCert;
      err ← AddAsTrustedRoot env ca;
      returnIfErr err;;
      mret err
    else mret err
  else mret err.

Definition initCerts_serverCert (env : Env) (g : Globals) (host : string)
    (err : option error) : M (option error) :=
  if isUpstream g then
    '(c, err) ← LoadCertificateFromFile (SERVER_CERT_FILE g);
    modify (withServerCert c);;
    renew ← orElse (isErr err) (caCertExpires g);
    if renew : bool then
      Printf ("Creating new server cert at: %s " +:+ SERVER_CERT_FILE g);;
      s ← get;
      '(c, err) ← certificateFor env host (ONE_YEAR_FROM_TODAY g) true (caCert s);
      modify (withServerCert c);;
      returnIfErr err;;
      sc ← deref serverCert;
      err ← WriteToFile env (SERVER_CERT_FILE g) (CertFile sc);
      returnIfErr err;;
      mret err
    else mret err
  else mret err.

Definition initCerts (env : Env) (g : Globals) (host : string) : M (option error) :=
  initCerts_pk env g;;
  err ← initCerts_caCert env g;
  initCerts_serverCert env g host err.

(** The call [initCerts(host)] of [main]: what [initCerts] returns, whether
    through a [return] in the middle or at its end. *)
Inductive outcome : Type :=
| Returned (err : option error) (s : State)
| Panicked (s : State).

Definition callInitCerts (env : Env) (g : Globals) (host : string) (s : State) : outcome :=
  match initCerts env g host s with
  | Val err s' => Returned err s'
  | Return err s' => Returned err s'
  | Panic s' => Panicked s'
  end.

(** ** The interception tunnel *)

(** *** Connections *)

(** A [net.Conn], seen from the process: whether it has been closed here,
    whether it has failed, and the bytes its peer has received from the
    process. *)
Record Conn : Type := {
  closed : bool;
  broken : bool;
  received : string
}.

Definition alive (c : Conn) : bool := negb (closed c) && negb (broken c).

(** [c.Write(data)].  On a connection that is closed or has failed nothing is
    sent.  Otherwise the surroundings decide: [None] sends everything,
    [Some n] sends at most [n] bytes and the connection fails.  The result is
    what was sent and whether the call returned without an error. *)
Definition connWrite (data : string) (limit : option nat) (c : Conn)
  : string * bool * Conn :=
  if alive c then
    match limit with
    | None =>
        (data, true,
         {| closed := closed c; broken := broken c; received := received c +:+ data |})
    | Some n =>
        let got := substring 0 n data in
        (got, false,
         {| closed := closed c; broken := true; received := received c +:+ got |})
    end
  else (""%string, false, c).

(** [c.Close()] *)
Definition connClose (c : Conn) : Conn :=
  {| closed := true; broken := broken c; received := received c |}.

(** *** Requests and the client protocol *)

Record URL : Type := {
  Scheme : string;
  Host : string;
  Path : string
}.

(** A request as [serverConn.Read] returns it.  Its body has not been
    read by then: [Body] is what the body holds when it can be read to its
    end. *)
Record Request : Type := {
  Method : string;
  url : URL;
  RequestHost : string;
  Header : list (string * string);
  Body : string
}.

(** The client side of the host-spoofing protocol, [cp].  Its [dial] and
    [rewrite] are not among the sources at hand and are taken as they come:
    [dial] returns a connection or [nil], and an error or [nil]. *)
Record ClientProtocol : Type := {
  dial : string -> option Conn * option error;
  rewrite : Request -> Request
}.

(** [strings.Split(addr, ":")[0]] *)
Fixpoint beforeColon (s : string) : string :=
  match s with
  | EmptyString => EmptyString
  | String c rest =>
      if Ascii.eqb c ":"%char then EmptyString else String c (beforeColon rest)
  end.

(** [req.URL.Scheme = "https"; req.URL.Host = strings.Split(addr, ":")[0]] *)
Definition redirect (addr : string) (req : Request) : Request :=
  {| Method := Method req;
     url := {| Scheme := "https"; Host := beforeColon addr; Path := Path (url req) |};
     RequestHost := RequestHost req;
     Header := Header req;
     Body := Body req |}.

(** *** Goroutines *)

Inductive ConnName : Type := ConnIn | ConnOut.

#[export] Instance ConnName_eq_dec : EqDecision ConnName.
Proof. solve_decision. Defined.

Inductive Actor : Type :=
| Handler             (* [handleClientMITM] itself *)
| Decoder             (* the goroutine it starts *)
| Copier (n : nat).   (* the goroutines of [pipe], in the order they start *)

(** What [serverConn.Read()] returns. *)
Inductive ReadResult : Type :=
| ReadOk (req : Request)
| ReadEOF
| ReadErr (e : error).

(** What a [Read] of [io.Copy] returns. *)
Inductive ChunkResult : Type :=
| Chunk (data : string)
| ChunkEOF
| ChunkErr (e : error).

(** The calls on the two connections, in the order they are made. *)
Inductive Action : Type :=
| ReadRequest (r : ReadResult)
| ReadChunk (who : Actor) (c : ConnName) (r : ChunkResult)
| Wrote (who : Actor) (c : ConnName) (data got : string)
| Closed (who : Actor) (c : ConnName).

(** Where the goroutine of [handleClientMITM] stands. *)
Inductive DecoderPC : Type :=
| AtRead                        (* serverConn.Read() *)
| AtCloseOut (msg : string)     (* connOut.Close() *)
| AtRespond (msg : string)      (* respondBadGateway(connIn, msg) *)
| AtWrite (req : Request)       (* req.Write(connOut) *)
| AtPipe                        (* pipe(connIn, connOut) *)
| Done.

(** Where a goroutine of [pipe] stands in [defer src.Close(); io.Copy(dst, src)]. *)
Inductive CopierPC : Type :=
| CopyRead
| CopyWrite (data : string)
| CopyClose
| CopyDone.

Record CopierState : Type := {
  src : ConnName;
  dst : ConnName;
  pc : CopierPC
}.

(** What the surroundings contribute to a step: the result of the read the
    goroutine may be waiting for, the fate of the write it may make on a
    connection, and the fate of the body that [req.Write] reads from the local
    connection while it writes the request: [Some (n, e)] when this read
    fails with [e] once [n] bytes of the request have been handed on. *)
Record Input : Type := {
  request : ReadResult;
  chunk : ChunkResult;
  limit : option nat;
  bodyError : option (nat * error)
}.

(** One tunnel: [connIn], [connOut] ([None] is [nil]), the goroutines, the
    calls so far, and whether the process has died of a panic. *)
Record Sys : Type := {
  inConn : Conn;
  outConn : option Conn;
  decoder : option DecoderPC;
  copiers : list CopierState;
  log : list Action;
  crashed : bool
}.

Definition conn (c : ConnName) (s : Sys) : option Conn :=
  match c with
  | ConnIn => Some (inConn s)
  | ConnOut => outConn s
  end.

Definition withConn (c : ConnName) (v : Conn) (s : Sys) : Sys :=
  match c with
  | ConnIn =>
      {| inConn := v; outConn := outConn s; decoder := decoder s;
         copiers := copiers s; log := log s; crashed := crashed s |}
  | ConnOut =>
      {| inConn := inConn s; outConn := Some v; decoder := decoder s;
         copiers := copiers s; log := log s; crashed := crashed s |}
  end.

Definition withDecoder (d : option DecoderPC) (s : Sys) : Sys :=
  {| inConn := inConn s; outConn := outConn s; decoder := d;
     copiers := copiers s; log := log s; crashed := crashed s |}.

Definition withCopiers (l : list CopierState) (s : Sys) : Sys :=
  {| inConn := inConn s; outConn := outConn s; decoder := decoder s;
     copiers := l; log := log s; crashed := crashed s |}.

Definition logged (a : Action) (s : Sys) : Sys :=
  {| inConn := inConn s; outConn := outConn s; decoder := decoder s;
     copiers := copiers s; log := log s ++ [a]; crashed := crashed s |}.

Definition crash (s : Sys) : Sys :=
  {| inConn := inConn s; outConn := outConn s; decoder := decoder s;
     copiers := copiers s; log := log s; crashed := true |}.

(** A write by [who] on [c]; on a [nil] connection the process panics. *)
Definition write (who : Actor) (c : ConnName) (data : string) (lim : option nat)
    (s : Sys) : bool * Sys :=
  match conn c s with
  | None => (false, crash s)
  | Some v =>
      let '(got, ok, v') := connWrite data lim v in
      (ok, logged (Wrote who c data got) (withConn c v' s))
  end.

(** A close by [who] of [c]; on a [nil] connection the process panics. *)
Definition close (who : Actor) (c : ConnName) (s : Sys) : Sys :=
  match conn c s with
  | None => crash s
  | Some v => logged (Closed who c) (withConn c (connClose v) s)
  end.

(** *** [respondBadGateway] *)

Definition respondBadGateway (who : Actor) (msg : string) (lim : option nat)
    (s : Sys) : Sys :=
  close who ConnIn (snd (write who ConnIn ("HTTP/1.1 502 Bad Gateway: " +:+ msg) lim s)).

(** *** [pipe] *)

(** The two goroutines [pipe(connIn, connOut)] starts. *)
Definition pipe (s : Sys) : Sys :=
  withCopiers
    (copiers s ++ [ {| src := ConnIn; dst := ConnOut; pc := CopyRead |};
                    {| src := ConnOut; dst := ConnIn; pc := CopyRead |} ]) s.

(** A step of the [n]-th goroutine of [pipe]. *)
Definition stepCopier (n : nat) (i : Input) (s : Sys) : Sys :=
  match copiers s !! n with
  | None => s
  | Some t =>
      let at_ (p : CopierPC) (s : Sys) : Sys :=
        withCopiers (<[n := {| src := src t; dst := dst t; pc := p |}]> (copiers s)) s in
      match pc t with
      | CopyRead =>
          match conn (src t) s with
          | None => crash s
          | Some _ =>
              let s := logged (ReadChunk (Copier n) (src t) (chunk i)) s in
              match chunk i with
              | Chunk data =>
                  if String.eqb data "" then s else at_ (CopyWrite data) s
              | ChunkEOF | ChunkErr _ => at_ CopyClose s
              end
          end
      | CopyWrite data =>
          let '(ok, s) := write (Copier n) (dst t) data (limit i) s in
          if crashed s then s
          else if ok then at_ CopyRead s else at_ CopyClose s
      | CopyClose =>
          let s := close (Copier n) (src t) s in
          if crashed s then s else at_ CopyDone s
      | CopyDone => s
      end
  end.

(** *** [req.Write] *)

(** [req.Write(connOut)], where [data] is the request as it is on the wire
    when all of it is written.  The body of a request has not been read
    when [serverConn.Read] returns it: [req.Write] reads it from the local
    connection as it writes.  When this read fails, what has been handed to
    [connOut] by then is all that is written; [connOut] is left as it is and
    [req.Write] returns the error.  On a [nil] connection the call
    panics. *)
Definition writeRequest (data : string) (body : option (nat * error))
    (lim : option nat) (s : Sys) : bool * Sys :=
  match body with
  | None => write Decoder ConnOut data lim s
  | Some (n, e) =>
      match conn ConnOut s with
      | None => (false, crash s)
      | Some v =>
          let s := logged (ReadChunk Decoder ConnIn (ChunkErr e)) s in
          let '(got, _, v') := connWrite (substring 0 n data) lim v in
          (false, logged (Wrote Decoder ConnOut data got) (withConn ConnOut v' s))
      end
  end.

(** *** [handleClientMITM] *)

Section Tunnel.

Context (cp : ClientProtocol) (RequestWrite : Request -> string) (addr : string).

(** A step of the goroutine started by [handleClientMITM]: one call of its
    body, the two calls inside [respondBadGateway] being one step.
    [RequestWrite] takes a request to the bytes [req.Write] puts on the
    wire when it writes all of it.  What [req.Write] returns is dropped. *)
Definition stepDecoder (i : Input) (s : Sys) : Sys :=
  match decoder s with
  | None => s
  | Some AtRead =>
      let s := logged (ReadRequest (request i)) s in
      match request i with
      | ReadOk req => withDecoder (Some (AtWrite (rewrite cp (redirect addr req)))) s
      | ReadEOF => withDecoder (Some Done) s
      | ReadErr e =>
          withDecoder (Some (AtCloseOut ("Unable to read request: " +:+ e))) s
      end
  | Some (AtCloseOut msg) =>
      let s := close Decoder ConnOut s in
      if crashed s then s else withDecoder (Some (AtRespond msg)) s
  | Some (AtRespond msg) =>
      withDecoder (Some Done) (respondBadGateway Decoder msg (limit i) s)
  | Some (AtWrite req) =>
      let '(_, s) :=
        writeRequest (RequestWrite req) (bodyError i) (limit i) s in
      if crashed s then s else withDecoder (Some AtPipe) s
  | Some AtPipe => withDecoder (Some AtRead) (pipe s)
  | Some Done => s
  end.

(** What runs next is for the scheduler to choose. *)
Inductive Choice : Type :=
| RunDecoder (i : Input)
| RunCopier (n : nat) (i : Input).

(** After a panic nothing runs any more. *)
Definition step (ch : Choice) (s : Sys) : Sys :=
  if crashed s then s
  else match ch with
       | RunDecoder i => stepDecoder i s
       | RunCopier n i => stepCopier n i s
       end.

Definition run (sched : list Choice) (s : Sys) : Sys :=
  foldl (fun s ch => step ch s) s sched.

(** [handleClientMITM(connIn, addr)] up to its return: the dial, the
    answer to a failed dial and the start of the goroutine. *)
Definition handleClientMITM (connIn : Conn) (lim : option nat) : Sys :=
  let '(connOut, err) := dial cp addr in
  let s := {| inConn := connIn; outConn := connOut; decoder := None;
              copiers := []; log := []; crashed := false |} in
  let s :=
    match err with
    | Some e => respondBadGateway Handler ("Unable to dial upstream proxy: " +:+ e) lim s
    | None => s
    end in
  withDecoder (Some AtRead) s.

End Tunnel.


(** ** Vocabulary of the properties *)

(** The certificate a file holds, if it holds one that can be read. *)
Definition stored (path : string) (s : State) : option keyman.Certificate :=
  match files s !! path with
  | Some (CertFile c) => Some c
  | _ => None
  end.

(** The expiry policy: the not-after time lies before [ONE_MONTH_FROM_TODAY]. *)
Definition aboutToExpire (g : Globals) (c : keyman.Certificate) : bool :=
  time.Before (x509.NotAfter (keyman.X509 c)) (ONE_MONTH_FROM_TODAY g).

(** Absent, unreadable or about to expire. *)
Definition renewalDue (g : Globals) (path : string) (s : State) : bool :=
  match stored path s with
  | Some c => aboutToExpire g c
  | None => true
  end.

Definition generatesSelfSigned (e : Event) : bool :=
  match e with
  | EvCertificateFor _ _ _ None => true
  | _ => false
  end.

Definition generatesIssued (e : Event) : bool :=
  match e with
  | EvCertificateFor _ _ _ (Some _) => true
  | _ => false
  end.

(** [initCerts] generates a CA certificate only without an issuer and a
    server certificate only with one, so that the events tell which of the
    two a run has generated. *)
Definition regeneratesCA (tr : list Event) : bool := existsb generatesSelfSigned tr.
Definition regeneratesServerCert (tr : list Event) : bool := existsb generatesIssued tr.

(** The server certificate is issued by the CA certificate in use. *)
Definition issuedByCurrentCA (s : State) : Prop :=
  exists ca sc,
    caCert s = Some ca /\ serverCert s = Some sc /\
    keyman.issuer sc = Some (keyman.X509 ca).

(** The certificate a successful call of [certificateFor] returns when the
    clock has been read [n] times before and [pk] holds [k]. *)
Definition issued (env : Env) (name : string) (validUntil : time.Time) (isCA : bool)
    (issuer : option keyman.Certificate) (k : keyman.PrivateKey) (n : nat)
  : keyman.Certificate :=
  {| keyman.X509 :=
       template name validUntil isCA issuer (now env n) (now env (S n));
     keyman.issuer := keyman.X509 <$> issuer;
     keyman.signedWith := k |}.

(** The results of [serverConn.Read()] so far, and the first request: the
    one the first read returned, if it returned one. *)
Definition reads (l : list Action) : list ReadResult :=
  omap (fun a => match a with ReadRequest r => Some r | _ => None end) l.

Definition firstRequest (l : list Action) : option Request :=
  match reads l with
  | ReadOk req :: _ => Some req
  | _ => None
  end.

(** The writes on [connOut] so far: who wrote, what was to be written and
    what was sent. *)
Definition upstreamWrites (l : list Action) : list (Actor * string * string) :=
  omap (fun a => match a with
                 | Wrote who ConnOut data got => Some (who, data, got)
                 | _ => None
                 end) l.

(** The bytes sent on [connOut] so far, in their order. *)
Definition sentUpstream (l : list Action) : string :=
  foldr (fun w rest => w.2 +:+ rest) ""%string (upstreamWrites l).

(** The calls of the goroutine of [handleClientMITM]. *)
Definition byDecoder (a : Action) : bool :=
  match a with
  | ReadRequest _ => true
  | ReadChunk Decoder _ _ => true
  | Wrote Decoder _ _ _ => true
  | Closed Decoder _ => true
  | _ => false
  end.

(** A connection nothing can be sent on any more ([nil] included). *)
Definition dead (o : option Conn) : Prop :=
  match o with
  | Some c => alive c = false
  | None => True
  end.

(** A connection that is there and has been closed. *)
Definition isClosed (o : option Conn) : bool :=
  match o with
  | Some c => closed c
  | None => false
  end.


(** The write of the first request was cut short by its body: a read of
    the body failed before anything was written on [connOut]. *)
Fixpoint firstRequestCut (l : list Action) : bool :=
  match l with
  | [] => false
  | ReadChunk Decoder _ (ChunkErr _) :: _ => true
  | Wrote _ ConnOut _ _ :: _ => false
  | _ :: l => firstRequestCut l
  end.

(** What holds of a tunnel at every moment.  Either no goroutine of [pipe]
    has been started and nothing has been written on [connOut], and the
    decoder has read nothing yet, or holds the rewritten first request it has
    just read, or has left its loop.  Or the first write on [connOut] is the
    decoder's write of the rewritten first request, and that write sent the
    whole of it, or it was cut short by the body of the request, or nothing
    has been sent on [connOut] since. *)
Definition tunnelInv (cp : ClientProtocol) (RequestWrite : Request -> string)
    (addr : string) (s : Sys) : Prop :=
  (copiers s = [] ∧ upstreamWrites (log s) = [] ∧
   match decoder s with
   | None | Some AtRead => reads (log s) = []
   | Some (AtWrite q) =>
       exists req, reads (log s) = [ReadOk req] ∧ q = rewrite cp (redirect addr req)
   | Some AtPipe => False
   | _ => True
   end)
  ∨ (exists req sent rest,
       firstRequest (log s) = Some req ∧
       upstreamWrites (log s)
         = (Decoder, RequestWrite (rewrite cp (redirect addr req)), sent) :: rest ∧
       (sent = RequestWrite (rewrite cp (redirect addr req))
        ∨ firstRequestCut (log s) = true
        ∨ (dead (outConn s) ∧ Forall (fun w => w.2 = ""%string) rest))).

(** The bad-gateway line. *)
Definition badGateway (msg : string) : string := "HTTP/1.1 502 Bad Gateway: " +:+ msg.

(** The start of [main]: the package variables are initialised, then
    [initCerts] is called with the part of the [addr] flag before its colon. *)
Definition startup (env : Env) (fl : Flags) (s : State) : option (Globals * outcome) :=
  match initGlobals env fl s with
  | Val g s' => Some (g, callInitCerts env g (beforeColon (addr fl)) s')
  | _ => None
  end.

(** The state a call leaves behind. *)
Definition final (o : outcome) : State :=
  match o with
  | Returned _ s => s
  | Panicked s => s
  end.

(** A process that has just started. *)
Definition processStart (fs : gmap string File) : State :=
  {| files := fs; trustStore := []; ticks := 0; trace := [];
     pk := None; caCert := None; serverCert := None |}.

(** ** Sample runs *)

Module Sample.

(** Midnight (UTC) of a day, as an instant. *)
Definition date (y m d : Z) : time.Time :=
  time.daysFromCivil y m d * time.secondsPerDay * time.nsPerSecond.

(** A server proxy listening on [example.org:443]. *)
Definition serverFlags : Flags :=
  {| help := false; addr := "example.org:443"; upstreamHost := "";
     upstreamPort := 443; masqueradeAs := ""; configDir := "";
     PathSeparator := "/"%char |}.

(** A client proxy of [example.org]. *)
Definition clientFlags : Flags :=
  {| help := false; addr := "localhost:10080"; upstreamHost := "example.org";
     upstreamPort := 443; masqueradeAs := ""; configDir := "flashlight";
     PathSeparator := "/"%char |}.

Definition key : keyman.PrivateKey := {| keyman.bits := 2048; keyman.material := 42 |}.

(** The process starts on 2014-01-31 at 5 ns past noon; every reading of
    the clock is half a second after the one before; nothing fails. *)
Definition env : Env :=
  {| now := fun k => date 2014 1 31 + 12 * 3600 * time.nsPerSecond + 5
                     + Z.of_nat k * 500000000;
     generatedKey := fun nbits => inl {| keyman.bits := nbits; keyman.material := 42 |};
     writeError := fun _ => None;
     failedWrite := fun _ old => old;
     signError := fun _ => None;
     trustError := None |}.

(** The same, with a clock that advances by 1 ms and 7 ns per reading. *)
Definition fineEnv : Env :=
  {| now := fun k => date 2014 1 31 + 12 * 3600 * time.nsPerSecond + 5
                     + Z.of_nat k * 1000007;
     generatedKey := generatedKey env;
     writeError := writeError env;
     failedWrite := failedWrite env;
     signError := signError env;
     trustError := trustError env |}.

Definition caUntil (notAfter : time.Time) : keyman.Certificate :=
  {| keyman.X509 :=
       {| x509.SerialNumber := 271828182;
          x509.Subject := {| x509.Organization := ["Lantern"];
                             x509.CommonName := "Lantern" |};
          x509.NotBefore := date 2004 1 10;
          x509.NotAfter := notAfter;
          x509.BasicConstraintsValid := true;
          x509.KeyUsage := 37;
          x509.ExtKeyUsages := [x509.ExtKeyUsageServerAuth];
          x509.IsCA := true |};
     keyman.issuer := None;
     keyman.signedWith := key |}.

Definition serverCertUntil (notAfter : time.Time) (ca : keyman.Certificate)
  : keyman.Certificate :=
  {| keyman.X509 :=
       {| x509.SerialNumber := 314159265;
          x509.Subject := {| x509.Organization := ["Lantern"];
                             x509.CommonName := "example.org" |};
          x509.NotBefore := date 2013 11 1;
          x509.NotAfter := notAfter;
          x509.BasicConstraintsValid := true;
          x509.KeyUsage := 5;
          x509.ExtKeyUsages := [];
          x509.IsCA := false |};
     keyman.issuer := Some (keyman.X509 ca);
     keyman.signedWith := key |}.

(** A CA certificate that expires on 2014-02-10, ten days after the start
    of the process, and a server certificate it has issued, good until
    2014-12-01. *)
Definition agingCA : keyman.Certificate := caUntil (date 2014 2 10).
Definition serverCertOfAgingCA : keyman.Certificate :=
  serverCertUntil (date 2014 12 1) agingCA.

Definition agingCAFiles : gmap string File :=
  <["proxypk.pem" := PKFile key]>
    (<["cacert.pem" := CertFile agingCA]>
       (<["servercert.pem" := CertFile serverCertOfAgingCA]> ∅)).

(** A CA certificate good until 2023 and a server certificate it has
    issued that expires on 2014-02-10. *)
Definition soundCA : keyman.Certificate := caUntil (date 2023 1 1).
Definition agingServerCert : keyman.Certificate :=
  serverCertUntil (date 2014 2 10) soundCA.

Definition agingServerCertFiles : gmap string File :=
  <["proxypk.pem" := PKFile key]>
    (<["cacert.pem" := CertFile soundCA]>
       (<["servercert.pem" := CertFile agingServerCert]> ∅)).

(** A CA certificate and a server certificate that are both good for
    years. *)
Definition soundServerCert : keyman.Certificate :=
  serverCertUntil (date 2014 12 1) soundCA.

Definition soundFiles : gmap string File :=
  <["proxypk.pem" := PKFile key]>
    (<["cacert.pem" := CertFile soundCA]>
       (<["servercert.pem" := CertFile soundServerCert]> ∅)).

(** The package variables of the server proxy started under [env]. *)
Definition globals : Globals :=
  {| flags := serverFlags;
     TOMORROW := time.AddDate 0 0 1 (now env 0);
     ONE_MONTH_FROM_TODAY := time.AddDate 0 1 0 (now env 1);
     ONE_YEAR_FROM_TODAY := time.AddDate 1 0 0 (now env 2);
     TEN_YEARS_FROM_TODAY := time.AddDate 10 0 0 (now env 3) |}.

(** The process when [main] begins: the clock has been read four times
    for the package variables. *)
Definition started (fs : gmap string File) : State :=
  withTicks 4 (processStart fs).

(** A process that holds [key] in [pk] after [n] readings of the clock. *)
Definition keyed (n : nat) : State :=
  withTicks n (withPk (Some key) (processStart ∅)).

(** A connection that has just been established. *)
Definition freshConn : Conn := {| closed := false; broken := false; received := "" |}.

(** An upstream proxy that can be reached, and one that cannot. *)
Definition reachable : ClientProtocol :=
  {| dial := fun _ => (Some freshConn, None);
     rewrite := fun req =>
       {| Method := Method req; url := url req; RequestHost := "cdn.example";
          Header := ("X-Lantern-Host", Host (url req))
                    :: ("X-Lantern-Scheme", Scheme (url req)) :: Header req;
          Body := Body req |} |}.

Definition unreachable : ClientProtocol :=
  {| dial := fun _ => (None, Some "dial tcp: connection refused"%string);
     rewrite := rewrite reachable |}.

(** A request line and a host line stand for [req.Write]. *)
Definition requestWrite (req : Request) : string :=
  Method req +:+ " " +:+ Path (url req) +:+ " HTTP/1.1 Host: " +:+ RequestHost req.

Definition getIndex : Request :=
  {| Method := "GET"; url := {| Scheme := ""; Host := ""; Path := "/" |};
     RequestHost := "origin.example"; Header := []; Body := "" |}.

(** The surroundings at a step: a read of the decoder returns [r], a read of
    a copier returns [c], writes go through and the body of a request can be
    read to its end. *)
Definition input (r : ReadResult) (c : ChunkResult) : Input :=
  {| request := r; chunk := c; limit := None; bodyError := None |}.

(** Nothing but the end of the stream arrives. *)
Definition eof : Input := input ReadEOF ChunkEOF.

(** The tunnel for [CONNECT origin.example:443]. *)
Definition tunnel (cp : ClientProtocol) : Sys :=
  handleClientMITM cp "origin.example:443" freshConn None.

(** The first request arrives and is passed on, the relay starts, and the
    first copier passes three more bytes upstream. *)
Definition relaying : list Choice :=
  [ RunDecoder (input (ReadOk getIndex) ChunkEOF); RunDecoder eof; RunDecoder eof;
    RunCopier 0 (input ReadEOF (Chunk "abc")); RunCopier 0 eof ].

(** The package variables of the sample client proxy started under [env]. *)
Definition clientGlobals : Globals :=
  {| flags := clientFlags;
     TOMORROW := time.AddDate 0 0 1 (now env 0);
     ONE_MONTH_FROM_TODAY := time.AddDate 0 1 0 (now env 1);
     ONE_YEAR_FROM_TODAY := time.AddDate 1 0 0 (now env 2);
     TEN_YEARS_FROM_TODAY := time.AddDate 10 0 0 (now env 3) |}.

(** Surroundings in which no key can be generated. *)
Definition noEntropy : Env :=
  {| now := now env;
     generatedKey := fun _ => inr "crypto/rand: no entropy"%string;
     writeError := writeError env;
     failedWrite := failedWrite env;
     signError := signError env;
     trustError := trustError env |}.

(** Surroundings in which no file can be written: a write fails and leaves
    a file that cannot be read. *)
Definition fullDisk : Env :=
  {| now := now env;
     generatedKey := generatedKey env;
     writeError := fun _ => Some "write: no space left on device"%string;
     failedWrite := fun _ _ => Some Unreadable;
     signError := signError env;
     trustError := trustError env |}.

(** The two certificates are in order and the key file is gone. *)
Definition keylessFiles : gmap string File :=
  <["cacert.pem" := CertFile soundCA]>
    (<["servercert.pem" := CertFile soundServerCert]> ∅).

(** A request with a body in chunks. *)
Definition postForm : Request :=
  {| Method := "POST"; url := {| Scheme := ""; Host := ""; Path := "/form" |};
     RequestHost := "origin.example"; Header := [("Transfer-Encoding", "chunked")];
     Body := "a=1" |}.

(** The body of the request cannot be read: its chunks are malformed, and
    [req.Write] fails before a byte of the request is on the wire. *)
Definition malformedBody : Input :=
  {| request := ReadEOF; chunk := ChunkEOF; limit := None;
     bodyError := Some (0%nat, "malformed chunked encoding"%string) |}.

(** The first request arrives with such a body; the relay starts all the
    same, and the first copier passes on the three bytes the local client
    sends next. *)
Definition cutShort : list Choice :=
  [ RunDecoder (input (ReadOk postForm) ChunkEOF); RunDecoder malformedBody;
    RunDecoder eof;
    RunCopier 0 (input ReadEOF (Chunk "abc")); RunCopier 0 eof ].

(** The relay of [relaying], and then the local client goes away: the first
    copier reads the end of the stream and closes its source. *)
Definition hangingUp : list Choice :=
  relaying ++ [RunCopier 0 eof; RunCopier 0 eof].

End Sample.

(** ** More of the program *)

(** *** [hostIncludingPort] *)

(** [strings.Contains(s, substr)] *)
Fixpoint Contains (s substr : string) : bool :=
  if String.prefix substr s then true
  else match s with
       | EmptyString => false
       | String _ rest => Contains rest substr
       end.

Definition hostIncludingPort (req : Request) : string :=
  let host := RequestHost req in
  if negb (Contains host ":") then host +:+ ":443" else host.

(** *** The goroutine that ends an orphaned process (Windows) *)

Module orphan.

(** What the goroutine does that can be seen: its log lines (the format and
    its arguments), the wait for a process and the end of the process. *)
Inductive Event : Type :=
| Errorf (format : string) (args : list Z)
| Error (msg : string)
| Wait (pid : Z)
| Exit (code : Z).

(** The operating system: the process [os.FindProcess] returns for a pid
    ([None] is [nil]; its error is dropped by the program), and whether
    [Wait] on a process ever returns. *)
Record OS : Type := {
  FindProcess : Z -> option Z;
  waitReturns : Z -> bool
}.

(** How the goroutine ends: with the process, by returning, or never,
    waiting. *)
Inductive End : Type :=
| Exited (code : Z)
| Finished
| Waiting.

(** The function started by [init], given the [parentPID] flag. *)
Definition init (os : OS) (parentPID : Z) : list Event * End :=
  let said :=
    if parentPID =? 0
    then [Errorf "No parent PID specified, not terminating when orphaned" []]
    else [] in
  match FindProcess os parentPID with
  | None => (said ++ [Errorf "No parent, not terminating when orphaned" []], Finished)
  | Some parent =>
      let said :=
        said ++ [Errorf "Waiting for parent %d to terminate" [parentPID]; Wait parent] in
      if waitReturns os parent
      then (said ++ [Error "Parent no longer running, terminating"; Exit 0], Exited 0)
      else (said, Waiting)
  end.

End orphan.

(** *** Further vocabulary *)

(** The key a file holds, if it holds one that can be read. *)
Definition storedKey (path : string) (s : State) : option keyman.PrivateKey :=
  match files s !! path with
  | Some (PKFile k) => Some k
  | _ => None
  end.

(** The first part of [initCerts] ends with a key in [pk]: the key file
    holds a readable key, or a key is generated and written. *)
Definition keyObtained (env : Env) (g : Globals) (s : State) : bool :=
  match storedKey (PK_FILE g) s with
  | Some _ => true
  | None =>
      match generatedKey env 2048 with
      | inl _ => negb (isErr (writeError env (PK_FILE g)))
      | inr _ => false
      end
  end.

Definition generatesKey (e : Event) : bool :=
  match e with
  | EvGeneratePK _ => true
  | _ => false
  end.

Definition regeneratesPK (tr : list Event) : bool := existsb generatesKey tr.

(** Surroundings in which no operation of [keyman] fails. *)
Definition benign (env : Env) : Prop :=
  (forall nbits, exists k, generatedKey env nbits = inl k) ∧
  (forall path, writeError env path = None) ∧
  (forall t, signError env t = None) ∧
  trustError env = None.

(** The key and the certificates the process holds are the ones its files
    hold. *)
Definition persisted (g : Globals) (s : State) : Prop :=
  (exists k, pk s = Some k ∧ storedKey (PK_FILE g) s = Some k) ∧
  (exists ca, caCert s = Some ca ∧ stored (CA_CERT_FILE g) s = Some ca) ∧
  (isUpstream g = true ->
   exists sc, serverCert s = Some sc ∧ stored (SERVER_CERT_FILE g) s = Some sc).

(** The requests the decoder has read so far. *)
Definition requestsRead (l : list Action) : list Request :=
  omap (fun r => match r with ReadOk req => Some req | _ => None end) (reads l).

(** What the decoder has written on [connOut] so far. *)
Definition forwarded (l : list Action) : list string :=
  omap (fun w => match w with
                 | (Decoder, data, _) => Some data
                 | _ => None
                 end) (upstreamWrites l).


(** The [n]-th goroutine of [pipe] reads from [connIn] when [n] is even and
    from [connOut] when it is odd. *)
Definition sourceOf (n : nat) : ConnName := if Nat.even n then ConnIn else ConnOut.
Definition sinkOf (n : nat) : ConnName := if Nat.even n then ConnOut else ConnIn.

(** The goroutines of [pipe] are paired: each has the source and the sink of
    its place in the list. *)
Definition paired (l : list CopierState) : Prop :=
  forall n t, l !! n = Some t -> src t = sourceOf n ∧ dst t = sinkOf n.

(** The goroutines of [pipe] come in pairs, one pair for every request the
    decoder has written (the pair of the last one is about to start when the
    decoder stands before [pipe]), and each has closed no connection but its
    source. *)
Definition pairsInv (s : Sys) : Prop :=
  paired (copiers s) ∧
  (length (copiers s) + (match decoder s with Some AtPipe => 2 | _ => 0 end)
   = 2 * length (forwarded (log s)))%nat ∧
  (forall n c, In (Closed (Copier n) c) (log s) -> c = sourceOf n).


(** ** Proof steps *)

(** Unfolds the parts of [initCerts] down to the states they pass on. *)
Ltac go_unfold :=
  unfold initCerts_pk, initCerts_caCert, initCerts_serverCert, caCertExpires,
    orElse, when, returnIfErr, LoadPKFromFile, LoadCertificateFromFile, GeneratePK,
    WriteToFile, AddAsTrustedRoot, deref, Printf, emit, modify, get, panic,
    mbind, mret, go_bind, go_ret in *.

(** Reads off which certificates a trace has generated. *)
Ltac go_events :=
  unfold regeneratesCA, regeneratesServerCert;
  rewrite ?existsb_app; simpl; rewrite ?orb_false_r, ?orb_true_r.

(** Splits a conjunction and evaluates the parts that are equations. *)
Ltac evaluate :=
  repeat match goal with |- _ ∧ _ => split end;
  try (vm_compute; reflexivity).

(** Unfolds a step of the tunnel down to the connections. *)
Ltac tunnel_unfold :=
  unfold step, stepDecoder, stepCopier, respondBadGateway, pipe, writeRequest, write, close,
    connWrite, connClose, conn, withConn, withDecoder, withCopiers, logged, crash in *.

Ltac tunnel_cases := repeat (case_match; simplify_eq/=; try done).

(** Reads off what a trace has generated, keys included. *)
Ltac go_all :=
  unfold regeneratesCA, regeneratesServerCert, regeneratesPK;
  rewrite ?existsb_app; simpl; rewrite ?orb_false_r, ?orb_true_r.

(** * Properties *)

(** ** The files of the configuration directory are three different files *)

Lemma append_inj_r (p a b : string) : p +:+ a = p +:+ b -> a = b.
Proof.
  induction p as [|c p IH]; simpl; [done|].
  intros H. injection H. done.
Qed.

Lemma append_assoc (a b c : string) : (a +:+ b) +:+ c = a +:+ b +:+ c.
Proof.
  induction a as [|x a IH]; [done|].
  change (String x ((a +:+ b) +:+ c) = String x (a +:+ b +:+ c)). by rewrite IH.
Qed.

Lemma append_nil_r (a : string) : a +:+ "" = a.
Proof.
  induction a as [|x a IH]; [done|].
  change (String x (a +:+ "") = String x a). by rewrite IH.
Qed.

Lemma inConfigDir_inj fl a b : inConfigDir fl a = inConfigDir fl b -> a = b.
Proof.
  unfold inConfigDir. destruct (String.eqb _ _); [done|].
  intros H. apply append_inj_r in H. by injection H.
Qed.

Lemma PK_FILE_not_CA_CERT_FILE g : PK_FILE g ≠ CA_CERT_FILE g.
Proof. intros H. apply inConfigDir_inj in H. discriminate. Qed.

Lemma PK_FILE_not_SERVER_CERT_FILE g : PK_FILE g ≠ SERVER_CERT_FILE g.
Proof. intros H. apply inConfigDir_inj in H. discriminate. Qed.

Lemma CA_CERT_FILE_not_SERVER_CERT_FILE g : CA_CERT_FILE g ≠ SERVER_CERT_FILE g.
Proof. intros H. apply inConfigDir_inj in H. discriminate. Qed.

(** ** What each part of [initCerts] does *)

#[local] Opaque template PK_FILE CA_CERT_FILE SERVER_CERT_FILE time.Before String.append.

(** A call of [certificateFor] reads the clock twice and signs the template
    with [pk]. *)
Lemma certificateFor_eq env name v isCA issuer s k :
  pk s = Some k ->
  certificateFor env name v isCA issuer s =
  Val (match signError env (keyman.X509 (issued env name v isCA issuer k (ticks s))) with
       | Some e => (None, Some e)
       | None => (Some (issued env name v isCA issuer k (ticks s)), None)
       end)
      (withTicks (S (S (ticks s)))
         (withTrace (trace s ++ [EvCertificateFor name v isCA issuer]) s)).
Proof.
  intros Hk.
  unfold certificateFor, Certificate, Now, deref, emit, modify, get,
    mbind, mret, go_bind, go_ret.
  cbn. rewrite Hk. reflexivity.
Qed.

(** Without a private key the call panics. *)
Lemma certificateFor_nil_pk env name v isCA issuer s :
  pk s = None -> exists s', certificateFor env name v isCA issuer s = Panic s'.
Proof.
  intros Hk.
  unfold certificateFor, Certificate, Now, deref, emit, modify, get, panic,
    mbind, mret, go_bind, go_ret.
  cbn. rewrite Hk. eauto.
Qed.

Lemma initCerts_pk_spec env g s :
  match initCerts_pk env g s with
  | Val _ s1 =>
      is_Some (pk s1) ∧ caCert s1 = caCert s ∧ serverCert s1 = serverCert s ∧
      ticks s1 = ticks s ∧
      (forall p, p ≠ PK_FILE g -> files s1 !! p = files s !! p) ∧
      regeneratesCA (trace s1) = regeneratesCA (trace s) ∧
      regeneratesServerCert (trace s1) = regeneratesServerCert (trace s)
  | Return err _ => err ≠ None
  | Panic _ => False
  end.
Proof.
  go_unfold. cbn.
  destruct (files s !! PK_FILE g) as [[| |]|] eqn:Hf; cbn.
  1: by repeat split.
  all: destruct (generatedKey env 2048); cbn; [|done].
  all: destruct (writeError env _); cbn; [done|].
  all: go_events; repeat split; try done.
  all: intros; by rewrite lookup_insert_ne.
Qed.

#[local] Opaque certificateFor.

Lemma initCerts_caCert_due env g s k :
  pk s = Some k -> renewalDue g (CA_CERT_FILE g) s = true ->
  match initCerts_caCert env g s with
  | Val err s2 =>
      let c := issued env "Lantern" (TEN_YEARS_FROM_TODAY g) true None k (ticks s) in
      err = None ∧ caCert s2 = Some c ∧
      (files s2 = <[CA_CERT_FILE g := CertFile c]> (files s)) ∧
      pk s2 = pk s ∧ serverCert s2 = serverCert s ∧
      regeneratesCA (trace s2) = true ∧
      regeneratesServerCert (trace s2) = regeneratesServerCert (trace s)
  | Return err s2 => err ≠ None
  | Panic _ => False
  end.
Proof.
  intros Hk Hdue. unfold renewalDue, stored, aboutToExpire in Hdue.
  go_unfold. cbn.
  assert (forall c0 tr, certificateFor env "Lantern" (TEN_YEARS_FROM_TODAY g) true None
            (withTrace tr (withCaCert c0 s)) = _) as Hgen
    by (intros; apply (certificateFor_eq _ _ _ _ _ _ k); exact Hk).
  destruct (files s !! CA_CERT_FILE g) as [[| |]|] eqn:Hf; cbn;
    rewrite ?Hdue, ?Hgen; cbn.
  all: destruct (signError env _); cbn; [done|].
  all: destruct (writeError env _); cbn; [done|].
  all: destruct (isDownstream g); cbn; [destruct (trustError env); cbn|].
  all: go_events; done.
Qed.

Lemma initCerts_caCert_kept env g s c :
  stored (CA_CERT_FILE g) s = Some c -> aboutToExpire g c = false ->
  initCerts_caCert env g s = Val None (withCaCert (Some c) s).
Proof.
  unfold stored, aboutToExpire. intros Hc Hexp.
  go_unfold. cbn.
  destruct (files s !! CA_CERT_FILE g) as [[| |]|]; simplify_eq.
  cbn. by rewrite Hexp.
Qed.

Lemma initCerts_serverCert_frame env g host err s ca k :
  caCert s = Some ca -> pk s = Some k ->
  match initCerts_serverCert env g host err s with
  | Val _ s' | Return _ s' =>
      caCert s' = Some ca ∧ pk s' = Some k ∧
      (forall p, p ≠ SERVER_CERT_FILE g -> files s' !! p = files s !! p) ∧
      regeneratesCA (trace s') = regeneratesCA (trace s)
  | Panic _ => False
  end.
Proof.
  intros Hca Hk. go_unfold.
  destruct (isUpstream g); [|done]. cbn.
  assert (forall c0 tr, certificateFor env host (ONE_YEAR_FROM_TODAY g) true (Some ca)
            (withTrace tr (withServerCert c0 s)) = _) as Hgen
    by (intros; apply (certificateFor_eq _ _ _ _ _ _ k); exact Hk).
  destruct (files s !! SERVER_CERT_FILE g) as [[| |]|] eqn:Hf; cbn; rewrite ?Hca; cbn.
  2: destruct (time.Before _ _); cbn; [|done].
  all: rewrite ?Hca, ?Hgen; cbn.
  all: destruct (signError env _); cbn; [go_events; done|].
  all: destruct (writeError env _); cbn; go_events; repeat split; try done.
  all: intros; first [by rewrite lookup_insert_ne|by rewrite lookup_partial_alter_ne].
Qed.

Lemma initCerts_serverCert_client env g host err s :
  isUpstream g = false -> initCerts_serverCert env g host err s = Val err s.
Proof. intros H. unfold initCerts_serverCert. by rewrite H. Qed.

Lemma initCerts_serverCert_kept env g host err s c ca :
  isUpstream g = true ->
  stored (SERVER_CERT_FILE g) s = Some c ->
  caCert s = Some ca -> aboutToExpire g ca = false ->
  initCerts_serverCert env g host err s = Val None (withServerCert (Some c) s).
Proof.
  unfold stored, aboutToExpire. intros Hup Hc Hca Hexp.
  go_unfold. rewrite Hup. cbn.
  destruct (files s !! SERVER_CERT_FILE g) as [[| |]|]; simplify_eq.
  cbn. by rewrite Hca, Hexp.
Qed.

Lemma initCerts_serverCert_due env g host err s ca k :
  isUpstream g = true ->
  stored (SERVER_CERT_FILE g) s = None ->
  caCert s = Some ca -> pk s = Some k ->
  match initCerts_serverCert env g host err s with
  | Val err' s' =>
      err' = None ∧
      serverCert s' =
        Some (issued env host (ONE_YEAR_FROM_TODAY g) true (Some ca) k (ticks s)) ∧
      stored (SERVER_CERT_FILE g) s' = serverCert s' ∧
      regeneratesServerCert (trace s') = true
  | Return err' s' => err' ≠ None
  | Panic _ => False
  end.
Proof.
  unfold stored. intros Hup Hc Hca Hk.
  go_unfold. rewrite Hup. cbn.
  assert (forall c0 tr, certificateFor env host (ONE_YEAR_FROM_TODAY g) true (Some ca)
            (withTrace tr (withServerCert c0 s)) = _) as Hgen
    by (intros; apply (certificateFor_eq _ _ _ _ _ _ k); exact Hk).
  destruct (files s !! SERVER_CERT_FILE g) as [[| |]|] eqn:Hf; simplify_eq; cbn.
  all: rewrite ?Hca, ?Hgen; cbn.
  all: destruct (signError env _); cbn; [done|].
  all: destruct (writeError env _); cbn; [done|].
  all: go_events; rewrite lookup_insert_eq; done.
Qed.

(** The same three parts, with all that they change and leave alone. *)

Lemma initCerts_pk_full env g s :
  match initCerts_pk env g s with
  | Val _ s1 =>
      trustStore s1 = trustStore s ∧
      match storedKey (PK_FILE g) s with
      | Some k => s1 = withPk (Some k) s
      | None =>
          exists k, generatedKey env 2048 = inl k ∧ writeError env (PK_FILE g) = None ∧
                    pk s1 = Some k ∧
                    (files s1 = <[PK_FILE g := PKFile k]> (files s)) ∧
                    regeneratesPK (trace s1) = true
      end
  | Return err s1 =>
      storedKey (PK_FILE g) s = None ∧
      (exists e, err = Some e ∧
                 (generatedKey env 2048 = inr e ∨
                  (exists k, generatedKey env 2048 = inl k) ∧
                  writeError env (PK_FILE g) = Some e)) ∧
      (forall p, p ≠ PK_FILE g -> files s1 !! p = files s !! p) ∧
      (forall e', generatedKey env 2048 = inr e' -> files s1 = files s) ∧
      Forall (fun ev => match ev with
                        | EvWriteFile path _ =>
                            path = PK_FILE g ∧ forall e', generatedKey env 2048 ≠ inr e'
                        | _ => True
                        end) (drop (length (trace s)) (trace s1)) ∧
      caCert s1 = caCert s ∧ serverCert s1 = serverCert s ∧
      trustStore s1 = trustStore s ∧
      regeneratesCA (trace s1) = regeneratesCA (trace s) ∧
      regeneratesServerCert (trace s1) = regeneratesServerCert (trace s)
  | Panic _ => False
  end.
Proof.
  go_unfold. unfold storedKey. cbn.
  destruct (files s !! PK_FILE g) as [[| |]|] eqn:Hf; cbn.
  1: done.
  all: destruct (generatedKey env 2048) eqn:Hg; cbn.
  all: try destruct (writeError env _) eqn:Hw; cbn.
  all: go_all; rewrite <- ?app_assoc, ?drop_app_length; repeat split; eauto 10.
  all: try (intros; by rewrite lookup_partial_alter_ne).
  all: try (intros; congruence).
  all: repeat (apply List.Forall_cons; [try done|]); try apply List.Forall_nil.
  all: split; [done|congruence].
Qed.

Lemma initCerts_caCert_full env g s k :
  pk s = Some k ->
  match initCerts_caCert env g s with
  | Val err s2 =>
      err = None ∧ pk s2 = Some k ∧ serverCert s2 = serverCert s ∧
      regeneratesPK (trace s2) = regeneratesPK (trace s) ∧
      regeneratesServerCert (trace s2) = regeneratesServerCert (trace s) ∧
      (forall p, p ≠ CA_CERT_FILE g -> files s2 !! p = files s !! p) ∧
      exists ca, caCert s2 = Some ca ∧ stored (CA_CERT_FILE g) s2 = Some ca ∧
        if renewalDue g (CA_CERT_FILE g) s
        then ca = issued env "Lantern" (TEN_YEARS_FROM_TODAY g) true None k (ticks s) ∧
             trustStore s2 = (if isDownstream g then trustStore s ++ [ca] else trustStore s)
        else stored (CA_CERT_FILE g) s = Some ca ∧ s2 = withCaCert (Some ca) s
  | Return err s2 =>
      err ≠ None ∧ renewalDue g (CA_CERT_FILE g) s = true ∧
      serverCert s2 = serverCert s ∧
      files s2 !! SERVER_CERT_FILE g = files s !! SERVER_CERT_FILE g ∧
      regeneratesServerCert (trace s2) = regeneratesServerCert (trace s)
  | Panic _ => False
  end.
Proof.
  intros Hk. unfold renewalDue.
  destruct (stored (CA_CERT_FILE g) s) as [c|] eqn:Hst;
    [destruct (aboutToExpire g c) eqn:Hexp|].
  2: { rewrite (initCerts_caCert_kept env g s c Hst Hexp). simpl.
       repeat split; try done. exists c. unfold stored in *. simpl. by rewrite Hst. }
  all: unfold stored, aboutToExpire in *.
  all: pose proof (CA_CERT_FILE_not_SERVER_CERT_FILE g) as Hne.
  all: go_unfold; cbn.
  all: assert (forall c0 tr, certificateFor env "Lantern" (TEN_YEARS_FROM_TODAY g) true None
            (withTrace tr (withCaCert c0 s)) = _) as Hgen
    by (intros; apply (certificateFor_eq _ _ _ _ _ _ k); exact Hk).
  all: destruct (files s !! CA_CERT_FILE g) as [[| |]|] eqn:Hf; simplify_eq; cbn;
    rewrite ?Hexp, ?Hgen; cbn.
  all: destruct (signError env _); cbn; [go_all; done|].
  all: destruct (writeError env _); cbn;
    [go_all; rewrite ?lookup_partial_alter_ne by done; done|].
  all: destruct (isDownstream g); cbn; [destruct (trustError env); cbn|].
  all: go_all; rewrite ?lookup_insert_ne by done;
    repeat split; try done.
  all: try (intros; by rewrite lookup_insert_ne).
  all: eexists; rewrite lookup_insert_eq; done.
Qed.

Lemma initCerts_serverCert_full env g host err0 s ca k :
  caCert s = Some ca -> pk s = Some k ->
  match initCerts_serverCert env g host err0 s with
  | Val err s' =>
      caCert s' = Some ca ∧ pk s' = Some k ∧ trustStore s' = trustStore s ∧
      regeneratesPK (trace s') = regeneratesPK (trace s) ∧
      (forall p, p ≠ SERVER_CERT_FILE g -> files s' !! p = files s !! p) ∧
      if isUpstream g
      then err = None ∧
           exists sc, serverCert s' = Some sc ∧ stored (SERVER_CERT_FILE g) s' = Some sc ∧
             (aboutToExpire g ca = false ->
              stored (SERVER_CERT_FILE g) s = Some sc ∧ s' = withServerCert (Some sc) s
              ∨ stored (SERVER_CERT_FILE g) s = None)
      else err = err0 ∧ s' = s
  | Return err s' => err ≠ None ∧ isUpstream g = true
  | Panic _ => False
  end.
Proof.
  intros Hca Hk. unfold stored, aboutToExpire. go_unfold.
  destruct (isUpstream g); [|done]. cbn.
  assert (forall c0 tr, certificateFor env host (ONE_YEAR_FROM_TODAY g) true (Some ca)
            (withTrace tr (withServerCert c0 s)) = _) as Hgen
    by (intros; apply (certificateFor_eq _ _ _ _ _ _ k); exact Hk).
  destruct (files s !! SERVER_CERT_FILE g) as [[| |]|] eqn:Hf; cbn; rewrite ?Hca; cbn.
  2: destruct (time.Before _ _) eqn:Hexp; cbn.
  3: { rewrite Hf. repeat split; try done. eexists. repeat split; try done. by left. }
  all: rewrite ?Hca, ?Hgen; cbn.
  all: destruct (signError env _); cbn; [done|].
  all: destruct (writeError env _); cbn; [done|].
  all: go_all; repeat split; try done.
  all: try (intros; by rewrite lookup_insert_ne).
  all: eexists; rewrite lookup_insert_eq; repeat split; try done; by right.
Qed.

Lemma initCerts_parts env g host s :
  match initCerts_pk env g s with
  | Val _ s1 =>
      match initCerts_caCert env g s1 with
      | Val err s2 =>
          match initCerts_serverCert env g host err s2 with
          | Val err' s3 => callInitCerts env g host s = Returned err' s3
          | Return err' s3 => callInitCerts env g host s = Returned err' s3
          | Panic s3 => callInitCerts env g host s = Panicked s3
          end
      | Return err s2 => callInitCerts env g host s = Returned err s2
      | Panic s2 => callInitCerts env g host s = Panicked s2
      end
  | Return err s1 => callInitCerts env g host s = Returned err s1
  | Panic s1 => callInitCerts env g host s = Panicked s1
  end.
Proof.
  unfold callInitCerts, initCerts, mbind, go_bind.
  destruct (initCerts_pk env g s) as [[] s1| |]; try done.
  destruct (initCerts_caCert env g s1) as [err s2| |]; try done.
  by destruct (initCerts_serverCert env g host err s2).
Qed.

Lemma initCerts_success env g host s s' :
  callInitCerts env g host s = Returned None s' ->
  exists s1 s2 k ca,
    initCerts_pk env g s = Val tt s1 ∧
    initCerts_caCert env g s1 = Val None s2 ∧
    initCerts_serverCert env g host None s2 = Val None s' ∧
    pk s1 = Some k ∧ caCert s2 = Some ca ∧ pk s2 = Some k.
Proof.
  intros Hrun. pose proof (initCerts_parts env g host s) as Hparts.
  pose proof (initCerts_pk_full env g s) as H1.
  destruct (initCerts_pk env g s) as [[] s1|e1 s1|s1] eqn:E1.
  2: { rewrite Hparts in Hrun. destruct H1 as (_ & (e & -> & _) & _). done. }
  2: done.
  assert (exists k, pk s1 = Some k) as [k Hk].
  { destruct H1 as [_ H1]. destruct (storedKey (PK_FILE g) s).
    - subst s1. by eexists.
    - destruct H1 as (k & _ & _ & ? & _). by exists k. }
  pose proof (initCerts_caCert_full env g s1 k Hk) as H2.
  destruct (initCerts_caCert env g s1) as [err s2|e2 s2|s2] eqn:E2.
  2: { rewrite Hparts in Hrun. destruct H2 as (? & _). congruence. }
  2: done.
  destruct H2 as (-> & Hk2 & _ & _ & _ & _ & ca & Hca & _).
  pose proof (initCerts_serverCert_full env g host None s2 ca k Hca Hk2) as H3.
  destruct (initCerts_serverCert env g host None s2) as [err' s3|e3 s3|s3] eqn:E3.
  2: { rewrite Hparts in Hrun. destruct H3 as (? & _). congruence. }
  2: done.
  rewrite Hparts in Hrun. injection Hrun as -> ->.
  by exists s1, s2, k, ca.
Qed.

(** ** The CA certificate *)

Lemma stored_frame path s s' :
  files s' !! path = files s !! path -> stored path s' = stored path s.
Proof. unfold stored. by intros ->. Qed.

#[local] Transparent template.

Lemma issued_self_signed env name v isCA k n :
  keyman.issuer (issued env name v isCA None k n) = None ∧
  x509.NotAfter (keyman.X509 (issued env name v isCA None k n)) = v ∧
  x509.IsCA (keyman.X509 (issued env name v isCA None k n)) = true.
Proof. by destruct isCA. Qed.

Lemma issued_NotAfter env name v isCA issuer k n :
  x509.NotAfter (keyman.X509 (issued env name v isCA issuer k n)) = v.
Proof. by destruct issuer, isCA. Qed.

#[local] Opaque template.

(** When the renewal is due and the second part of [initCerts] returns in
    its middle, the CA certificate has been asked for; if it was not the
    signing nor the writing that failed, [caCert] holds it and so does the
    file. *)
Lemma initCerts_caCert_due_return env g s k :
  pk s = Some k -> renewalDue g (CA_CERT_FILE g) s = true ->
  match initCerts_caCert env g s with
  | Return err s2 =>
      regeneratesCA (trace s2) = true ∧
      ((forall t, signError env t = None) -> writeError env (CA_CERT_FILE g) = None ->
       let c := issued env "Lantern" (TEN_YEARS_FROM_TODAY g) true None k (ticks s) in
       caCert s2 = Some c ∧ stored (CA_CERT_FILE g) s2 = Some c)
  | _ => True
  end.
Proof.
  intros Hk Hdue. unfold renewalDue, stored, aboutToExpire in *.
  go_unfold. cbn.
  assert (forall c0 tr, certificateFor env "Lantern" (TEN_YEARS_FROM_TODAY g) true None
            (withTrace tr (withCaCert c0 s)) = _) as Hgen
    by (intros; apply (certificateFor_eq _ _ _ _ _ _ k); exact Hk).
  destruct (files s !! CA_CERT_FILE g) as [[| |]|] eqn:Hf; cbn;
    rewrite ?Hdue, ?Hgen; cbn.
  all: destruct (signError env _) eqn:Hs; cbn;
    [split; [by go_events|intros Hsign; by rewrite Hsign in Hs]|].
  all: destruct (writeError env _) eqn:Hw; cbn;
    [split; [by go_events|intros _ Hwrite; by rewrite Hwrite in Hw]|].
  all: destruct (isDownstream g); cbn; [destruct (trustError env); cbn|]; try done.
  all: split; [by go_events|intros _ _; by rewrite lookup_insert_eq].
Qed.

(** The decision on the CA certificate and its result, for every run of
    [initCerts] from a fresh process, whether it returns an error or not. *)
Lemma initCerts_caCert_policy env g host s :
  trace s = [] ->
  regeneratesCA (trace (final (callInitCerts env g host s)))
    = keyObtained env g s && renewalDue g (CA_CERT_FILE g) s ∧
  (keyObtained env g s = true ->
   (renewalDue g (CA_CERT_FILE g) s = true ->
    (forall t, signError env t = None) -> writeError env (CA_CERT_FILE g) = None ->
    exists c, caCert (final (callInitCerts env g host s)) = Some c ∧
              stored (CA_CERT_FILE g) (final (callInitCerts env g host s)) = Some c ∧
              keyman.issuer c = None ∧
              x509.NotAfter (keyman.X509 c) = TEN_YEARS_FROM_TODAY g ∧
              x509.IsCA (keyman.X509 c) = true) ∧
   (forall c, stored (CA_CERT_FILE g) s = Some c -> aboutToExpire g c = false ->
      caCert (final (callInitCerts env g host s)) = Some c ∧
      stored (CA_CERT_FILE g) (final (callInitCerts env g host s)) = Some c)).
Proof.
  intros Htr. pose proof (initCerts_parts env g host s) as Hparts.
  pose proof (initCerts_pk_full env g s) as H1.
  pose proof (initCerts_pk_spec env g s) as H1'.
  unfold keyObtained.
  destruct (initCerts_pk env g s) as [[] s1|e1 s1|s1]; [| |done].
  2: { rewrite Hparts. simpl.
       destruct H1 as (-> & (e & _ & He) & _ & _ & _ & _ & _ & _ & -> & _).
       rewrite Htr.
       destruct He as [->|[[k ->] ->]]; done. }
  destruct H1' as ([k Hk] & _ & _ & _ & Hfs1 & Hev1 & _).
  rewrite Htr in Hev1.
  assert (match storedKey (PK_FILE g) s with
          | Some _ => true
          | None => match generatedKey env 2048 with
                    | inl _ => negb (isErr (writeError env (PK_FILE g)))
                    | inr _ => false
                    end
          end = true) as ->.
  { destruct H1 as [_ H1]. destruct (storedKey (PK_FILE g) s); [done|].
    destruct H1 as (k' & -> & -> & _). done. }
  assert (stored (CA_CERT_FILE g) s1 = stored (CA_CERT_FILE g) s) as Hst1.
  { apply stored_frame, Hfs1. intros E. by apply (PK_FILE_not_CA_CERT_FILE g). }
  assert (renewalDue g (CA_CERT_FILE g) s1 = renewalDue g (CA_CERT_FILE g) s) as Hdue1
    by (unfold renewalDue; by rewrite Hst1).
  rewrite andb_true_l.
  destruct (renewalDue g (CA_CERT_FILE g) s) eqn:Hdue.
  - pose proof (initCerts_caCert_due env g s1 k Hk Hdue1) as H2.
    pose proof (initCerts_caCert_due_return env g s1 k Hk Hdue1) as H2'.
    destruct (initCerts_caCert env g s1) as [err s2|e2 s2|s2]; [| |done].
    + cbn zeta in H2. destruct H2 as (-> & Hca2 & Hfs2 & Hk2 & _ & Hev2 & _).
      rewrite Hk in Hk2.
      pose proof (initCerts_serverCert_frame env g host None s2 _ k Hca2 Hk2) as H3.
      assert (exists s3, final (callInitCerts env g host s) = s3 ∧
                caCert s3 = caCert s2 ∧
                files s3 !! CA_CERT_FILE g = files s2 !! CA_CERT_FILE g ∧
                regeneratesCA (trace s3) = true) as (s3 & -> & Hca3 & Hfs3 & Hev3).
      { destruct (initCerts_serverCert env g host None s2) as [e3 s3|e3 s3|s3];
          [| |done]; rewrite Hparts; exists s3;
          destruct H3 as (-> & _ & Hf & ->); repeat split; try done;
          apply Hf, CA_CERT_FILE_not_SERVER_CERT_FILE. }
      split; [done|]. intros _. split.
      * intros _ _ _. eexists. rewrite Hca3, Hca2. split; [done|].
        split; [unfold stored; by rewrite Hfs3, Hfs2, lookup_insert_eq|].
        apply issued_self_signed.
      * intros c Hc Hexp. unfold renewalDue in Hdue. rewrite Hc in Hdue. congruence.
    + rewrite Hparts. simpl. destruct H2' as [Hev2 Hres]. split; [done|].
      intros _. split.
      * intros _ Hsign Hwrite. destruct (Hres Hsign Hwrite) as [Hca2 Hst2].
        eexists. split; [exact Hca2|]. split; [exact Hst2|]. apply issued_self_signed.
      * intros c Hc Hexp. unfold renewalDue in Hdue. rewrite Hc in Hdue. congruence.
  - unfold renewalDue in Hdue, Hdue1.
    destruct (stored (CA_CERT_FILE g) s) as [c|] eqn:Hc; [|done].
    rewrite (initCerts_caCert_kept env g s1 c Hst1 Hdue) in Hparts.
    pose proof (initCerts_serverCert_frame env g host None
                  (withCaCert (Some c) s1) c k eq_refl Hk) as H3.
    assert (exists s3, final (callInitCerts env g host s) = s3 ∧
              caCert s3 = Some c ∧
              files s3 !! CA_CERT_FILE g = files s1 !! CA_CERT_FILE g ∧
              regeneratesCA (trace s3) = false) as (s3 & -> & Hca3 & Hfs3 & Hev3).
    { destruct (initCerts_serverCert env g host None _) as [e3 s3|e3 s3|s3];
        [| |done]; rewrite Hparts; exists s3;
        destruct H3 as (-> & _ & Hf & ->); repeat split; try done;
        apply Hf, CA_CERT_FILE_not_SERVER_CERT_FILE. }
    split; [done|]. intros _. split; [done|].
    intros c' Hc' _. simplify_eq. split; [done|].
    rewrite <- Hst1. by apply stored_frame.
Qed.

(** The package variables, from four readings of the clock. *)
Lemma initGlobals_eq env fl s :
  initGlobals env fl s
  = Val {| flags := fl;
           TOMORROW := time.AddDate 0 0 1 (now env (ticks s));
           ONE_MONTH_FROM_TODAY := time.AddDate 0 1 0 (now env (1 + ticks s));
           ONE_YEAR_FROM_TODAY := time.AddDate 1 0 0 (now env (2 + ticks s));
           TEN_YEARS_FROM_TODAY := time.AddDate 10 0 0 (now env (3 + ticks s)) |}
        (withTicks (4 + ticks s) s).
Proof. reflexivity. Qed.

(** C3. The process starts: the package variables are initialised, with
    [ONE_MONTH_FROM_TODAY] one month and [TEN_YEARS_FROM_TODAY] ten years
    after a reading of the clock, and [initCerts] is called.  Whether the
    call returns an error or not, it has asked for a CA certificate exactly
    when it has come by a key (without one it returns before it looks at
    the CA certificate) and the CA certificate file holds no readable
    certificate or one whose not-after time lies before
    [ONE_MONTH_FROM_TODAY].  When it has, and neither the signing nor the
    writing of the certificate fails, the certificate is self-signed, good
    until [TEN_YEARS_FROM_TODAY], marked as a CA, held in [caCert] and
    written to the CA certificate file.  A readable certificate that is not
    about to expire is the one [caCert] holds afterwards, and its file is as
    it was. *)
Theorem initCerts_ca_renewal env fl s :
  trace s = [] ->
  exists g out,
    startup env fl s = Some (g, out) ∧
    ONE_MONTH_FROM_TODAY g = time.AddDate 0 1 0 (now env (1 + ticks s)) ∧
    TEN_YEARS_FROM_TODAY g = time.AddDate 10 0 0 (now env (3 + ticks s)) ∧
    regeneratesCA (trace (final out))
      = keyObtained env g s && renewalDue g (CA_CERT_FILE g) s ∧
    (keyObtained env g s = true ->
     (renewalDue g (CA_CERT_FILE g) s = true ->
      (forall t, signError env t = None) -> writeError env (CA_CERT_FILE g) = None ->
      exists c, caCert (final out) = Some c ∧
                stored (CA_CERT_FILE g) (final out) = Some c ∧
                keyman.issuer c = None ∧
                x509.NotAfter (keyman.X509 c) = TEN_YEARS_FROM_TODAY g ∧
                x509.IsCA (keyman.X509 c) = true) ∧
     (forall c, stored (CA_CERT_FILE g) s = Some c -> aboutToExpire g c = false ->
        caCert (final out) = Some c ∧ stored (CA_CERT_FILE g) (final out) = Some c)).
Proof.
  intros Htr. unfold startup. rewrite initGlobals_eq.
  eexists _, _. split; [reflexivity|]. split; [reflexivity|]. split; [reflexivity|].
  set (g := {| flags := fl; TOMORROW := _; ONE_MONTH_FROM_TODAY := _;
               ONE_YEAR_FROM_TODAY := _; TEN_YEARS_FROM_TODAY := _ |}).
  apply (initCerts_caCert_policy env g (beforeColon (addr fl)) (withTicks (4 + ticks s) s)).
  exact Htr.
Qed.

(** C3 at work on a server proxy whose CA certificate expires within ten
    days: a new one is generated, good until 2024. *)
Lemma initCerts_ca_renewal_witness :
  exists g s',
    startup Sample.env Sample.serverFlags (processStart Sample.agingCAFiles)
      = Some (g, Returned None s') ∧
    regeneratesCA (trace s') = true ∧
    exists c, caCert s' = Some c ∧ stored (CA_CERT_FILE g) s' = Some c ∧
              keyman.issuer c = None ∧
              x509.NotAfter (keyman.X509 c) = time.AddDate 10 0 0 (now Sample.env 3) ∧
              x509.IsCA (keyman.X509 c) = true.
Proof.
  destruct (initCerts_ca_renewal Sample.env Sample.serverFlags
              (processStart Sample.agingCAFiles) eq_refl)
    as (g & out & Hstart & _ & Hten & Hdec & Hres).
  assert (exists s', startup Sample.env Sample.serverFlags (processStart Sample.agingCAFiles)
                     = Some (Sample.globals, Returned None s')) as [s' Hrun]
    by (eexists; vm_compute; reflexivity).
  rewrite Hrun in Hstart. injection Hstart as <- <-.
  exists Sample.globals, s'. split; [exact Hrun|]. simpl in Hdec, Hres.
  split; [rewrite Hdec; vm_compute; reflexivity|].
  destruct Hres as [Hdue _]; [vm_compute; reflexivity|].
  destruct Hdue as (c & Hca & Hst & Hiss & Hna & Hisca);
    [vm_compute; reflexivity|reflexivity|reflexivity|].
  exists c. rewrite Hna. by repeat split.
Defined.

(** ** The server certificate *)

(** What the code does: when a CA certificate good until
    [TEN_YEARS_FROM_TODAY] is not about to expire, a server proxy generates a
    server certificate exactly when the server certificate file holds no
    readable certificate.  The second test of [initCerts] looks at [caCert],
    which by then is not about to expire, so that it never decides. *)
Lemma initCerts_server_renewal env g host s s' :
  trace s = [] ->
  isUpstream g = true ->
  time.Before (TEN_YEARS_FROM_TODAY g) (ONE_MONTH_FROM_TODAY g) = false ->
  callInitCerts env g host s = Returned None s' ->
  regeneratesServerCert (trace s') =
    match stored (SERVER_CERT_FILE g) s with Some _ => false | None => true end ∧
  (forall c, stored (SERVER_CERT_FILE g) s = Some c -> serverCert s' = Some c).
Proof.
  intros Htr Hup Hlong Hrun.
  unfold callInitCerts, initCerts in Hrun. unfold mbind, go_bind in Hrun.
  pose proof (initCerts_pk_spec env g s) as H1.
  destruct (initCerts_pk env g s) as [[] s1|e1 s1|s1]; [|by simplify_eq..].
  destruct H1 as ([k Hk] & _ & _ & _ & Hfs1 & _ & Hev1).
  rewrite Htr in Hev1.
  (* after the second part: a CA certificate that is not about to expire *)
  assert (exists err s2 ca,
            initCerts_caCert env g s1 = Val err s2 ∧ caCert s2 = Some ca ∧
            aboutToExpire g ca = false ∧ pk s2 = Some k ∧
            stored (SERVER_CERT_FILE g) s2 = stored (SERVER_CERT_FILE g) s ∧
            regeneratesServerCert (trace s2) = false) as (err & s2 & ca & E2 & Hca & Hexp & Hk2 & Hst & Hev2).
  { assert (stored (SERVER_CERT_FILE g) s1 = stored (SERVER_CERT_FILE g) s) as Hst1.
    { apply stored_frame, Hfs1. intros E. by apply (PK_FILE_not_SERVER_CERT_FILE g). }
    destruct (renewalDue g (CA_CERT_FILE g) s1) eqn:Hdue.
    - pose proof (initCerts_caCert_due env g s1 k Hk Hdue) as H2.
      destruct (initCerts_caCert env g s1) as [err s2|e2 s2|s2]; [|by simplify_eq..].
      cbn zeta in H2. destruct H2 as (-> & Hca2 & Hfs2 & Hk2 & _ & _ & Hev2).
      eexists _, _, _. split; [done|]. split; [done|].
      split; [unfold aboutToExpire; by rewrite issued_NotAfter|].
      split; [congruence|]. split; [|by rewrite Hev2, Hev1].
      rewrite <- Hst1. apply stored_frame. rewrite Hfs2.
      apply lookup_insert_ne, CA_CERT_FILE_not_SERVER_CERT_FILE.
    - unfold renewalDue in Hdue.
      destruct (stored (CA_CERT_FILE g) s1) as [c|] eqn:Hc; [|done].
      rewrite (initCerts_caCert_kept env g s1 c Hc Hdue).
      by eexists _, _, _. }
  rewrite E2 in Hrun.
  destruct (stored (SERVER_CERT_FILE g) s) as [c|] eqn:Hc.
  - rewrite (initCerts_serverCert_kept env g host err s2 c ca Hup Hst Hca Hexp) in Hrun.
    simplify_eq. split; [done|]. by intros ? [= ->].
  - pose proof (initCerts_serverCert_due env g host err s2 ca k Hup Hst Hca Hk2) as H3.
    destruct (initCerts_serverCert env g host err s2); simplify_eq;
      [|by destruct H3 as (_ & _ & _ & ->)..].
    by destruct H3 as (_ & _ & _ & ->).
Qed.

(** C1. A server proxy is started on 2014-01-31 with a readable key, a CA
    certificate that expires on 2014-02-10 and a server certificate that
    this CA has issued.  [initCerts] returns without an error, has generated
    a new CA certificate and no server certificate: [serverCert] holds the
    stored certificate, whose issuer is the replaced CA certificate and not
    the one [caCert] holds. *)
Lemma initCerts_keeps_server_cert_of_replaced_CA :
  let s' := final (callInitCerts Sample.env Sample.globals "example.org"
                     (Sample.started Sample.agingCAFiles)) in
  callInitCerts Sample.env Sample.globals "example.org"
    (Sample.started Sample.agingCAFiles) = Returned None s' ∧
  isUpstream Sample.globals = true ∧
  regeneratesCA (trace s') = true ∧
  regeneratesServerCert (trace s') = false ∧
  caCert s' = Some (issued Sample.env "Lantern" (TEN_YEARS_FROM_TODAY Sample.globals)
                      true None Sample.key 4) ∧
  serverCert s' = Some Sample.serverCertOfAgingCA ∧
  keyman.issuer Sample.serverCertOfAgingCA = Some (keyman.X509 Sample.agingCA) ∧
  ¬ issuedByCurrentCA s'.
Proof.
  intros s'.
  assert (caCert s' = Some (issued Sample.env "Lantern"
                              (TEN_YEARS_FROM_TODAY Sample.globals) true None Sample.key 4))
    as Hca by (vm_compute; reflexivity).
  assert (serverCert s' = Some Sample.serverCertOfAgingCA)
    as Hsc by (vm_compute; reflexivity).
  evaluate; [done..|].
  intros (ca & sc & Hca' & Hsc' & Hiss).
  rewrite Hca in Hca'. rewrite Hsc in Hsc'.
  injection Hca' as <-. injection Hsc' as <-.
  vm_compute in Hiss. discriminate.
Qed.

(** C2. A server proxy is started on 2014-01-31 with a readable key, a CA
    certificate good until 2023 and a server certificate that expires on
    2014-02-10, within the month.  [initCerts] returns without an error and
    has generated no certificate: [serverCert] holds the certificate that is
    about to expire. *)
Lemma initCerts_keeps_expiring_server_cert :
  let s' := final (callInitCerts Sample.env Sample.globals "example.org"
                     (Sample.started Sample.agingServerCertFiles)) in
  callInitCerts Sample.env Sample.globals "example.org"
    (Sample.started Sample.agingServerCertFiles) = Returned None s' ∧
  isUpstream Sample.globals = true ∧
  stored (SERVER_CERT_FILE Sample.globals) (Sample.started Sample.agingServerCertFiles)
    = Some Sample.agingServerCert ∧
  aboutToExpire Sample.globals Sample.agingServerCert = true ∧
  regeneratesServerCert (trace s') = false ∧
  serverCert s' = Some Sample.agingServerCert.
Proof. intros s'. evaluate. Qed.

(** ** The template of [certificateFor], field by field *)

Lemma Nanosecond_range t : 0 <= time.Nanosecond t <= 999999999.
Proof.
  unfold time.Nanosecond, time.nsPerSecond.
  pose proof (Z.mod_pos_bound t 1000000000). lia.
Qed.

#[local] Transparent template.
#[local] Opaque time.AddDate time.Nanosecond.

Lemma template_issuer name v isCA ca t1 t2 :
  template name v isCA (Some ca) t1 t2 =
  {| x509.SerialNumber := time.Nanosecond t1;
     x509.Subject := {| x509.Organization := ["Lantern"]; x509.CommonName := name |};
     x509.NotBefore := time.AddDate 0 (-1) 0 t2;
     x509.NotAfter := v;
     x509.BasicConstraintsValid := true;
     x509.KeyUsage := Z.lor x509.KeyUsageKeyEncipherment x509.KeyUsageDigitalSignature;
     x509.ExtKeyUsages := [];
     x509.IsCA := false |}.
Proof. reflexivity. Qed.

Lemma template_self_signed name v isCA t1 t2 :
  template name v isCA None t1 t2 =
  {| x509.SerialNumber := time.Nanosecond t1;
     x509.Subject := {| x509.Organization := ["Lantern"]; x509.CommonName := name |};
     x509.NotBefore := time.AddDate 0 (-1) 0 t2;
     x509.NotAfter := v;
     x509.BasicConstraintsValid := true;
     x509.KeyUsage :=
       if isCA
       then Z.lor (Z.lor x509.KeyUsageKeyEncipherment x509.KeyUsageDigitalSignature)
              x509.KeyUsageCertSign
       else Z.lor x509.KeyUsageKeyEncipherment x509.KeyUsageDigitalSignature;
     x509.ExtKeyUsages := [x509.ExtKeyUsageServerAuth];
     x509.IsCA := true |}.
Proof. destruct isCA; reflexivity. Qed.

#[local] Opaque template.

(** ** Serial numbers *)

(** C4, as it stands, fails: with a clock that advances by half a second
    from one reading to the next, the CA certificate and the server
    certificate a server proxy generates in one run of [initCerts] carry the
    same serial number. *)
Lemma serial_numbers_collide :
  let s' := final (callInitCerts Sample.env Sample.globals "example.org"
                     (Sample.started ∅)) in
  exists ca sc,
    callInitCerts Sample.env Sample.globals "example.org" (Sample.started ∅)
      = Returned None s' ∧
    regeneratesCA (trace s') = true ∧ regeneratesServerCert (trace s') = true ∧
    caCert s' = Some ca ∧ serverCert s' = Some sc ∧
    x509.SerialNumber (keyman.X509 ca) = x509.SerialNumber (keyman.X509 sc).
Proof.
  intros s'.
  exists (issued Sample.env "Lantern" (TEN_YEARS_FROM_TODAY Sample.globals)
            true None Sample.key 4).
  eexists. evaluate.
Qed.

#[local] Transparent template.

Lemma issued_SerialNumber env name v isCA issuer k n :
  x509.SerialNumber (keyman.X509 (issued env name v isCA issuer k n))
  = time.Nanosecond (now env n).
Proof. by destruct issuer, isCA. Qed.

#[local] Opaque template.

(** Every successful call of [certificateFor] returns [issued]. *)
Lemma certificateFor_issued env name v isCA issuer s c s' :
  certificateFor env name v isCA issuer s = Val (Some c, None) s' ->
  exists k, pk s = Some k ∧ c = issued env name v isCA issuer k (ticks s).
Proof.
  intros H. destruct (pk s) as [k|] eqn:Hk.
  - rewrite (certificateFor_eq _ _ _ _ _ _ k Hk) in H.
    exists k. split; [done|]. destruct (signError env _); by simplify_eq.
  - destruct (certificateFor_nil_pk env name v isCA issuer s Hk) as [s0 E].
    congruence.
Qed.

(** C4, amended.  The serial number of a generated certificate is the
    nanosecond within the second of the first reading of the clock in its
    call, a number from 0 to 999999999; two generated certificates have
    different serial numbers exactly when these readings differ in it. *)
Theorem certificateFor_serial_numbers
    env name1 v1 isCA1 issuer1 s1 c1 s1' name2 v2 isCA2 issuer2 s2 c2 s2' :
  certificateFor env name1 v1 isCA1 issuer1 s1 = Val (Some c1, None) s1' ->
  certificateFor env name2 v2 isCA2 issuer2 s2 = Val (Some c2, None) s2' ->
  x509.SerialNumber (keyman.X509 c1) = time.Nanosecond (now env (ticks s1)) ∧
  0 <= x509.SerialNumber (keyman.X509 c1) <= 999999999 ∧
  (x509.SerialNumber (keyman.X509 c1) ≠ x509.SerialNumber (keyman.X509 c2) <->
   time.Nanosecond (now env (ticks s1)) ≠ time.Nanosecond (now env (ticks s2))).
Proof.
  intros H1 H2.
  apply certificateFor_issued in H1 as (k1 & _ & ->).
  apply certificateFor_issued in H2 as (k2 & _ & ->).
  rewrite !issued_SerialNumber. split; [done|]. split; [|done].
  apply Nanosecond_range.
Qed.

(** C4, amended, at work: two calls one after the other under a clock that
    advances by 1000007 ns per reading. *)
Lemma certificateFor_serial_numbers_witness :
  x509.SerialNumber
    (keyman.X509 (issued Sample.fineEnv "Lantern" 0 true None Sample.key 0)) = 5 ∧
  x509.SerialNumber
    (keyman.X509 (issued Sample.fineEnv "Lantern" 0 true None Sample.key 0)) ≠
  x509.SerialNumber
    (keyman.X509 (issued Sample.fineEnv "example.org" 0 true None Sample.key 2)).
Proof.
  destruct (certificateFor_serial_numbers Sample.fineEnv
              "Lantern" 0 true None (Sample.keyed 0)
              (issued Sample.fineEnv "Lantern" 0 true None Sample.key 0)
              (withTicks 2 (withTrace [EvCertificateFor "Lantern" 0 true None]
                              (Sample.keyed 0)))
              "example.org" 0 true None (Sample.keyed 2)
              (issued Sample.fineEnv "example.org" 0 true None Sample.key 2)
              (withTicks 4 (withTrace [EvCertificateFor "example.org" 0 true None]
                              (Sample.keyed 2))))
    as (Hserial & _ & Hdiff).
  - vm_compute. reflexivity.
  - vm_compute. reflexivity.
  - split.
    + rewrite Hserial. vm_compute. reflexivity.
    + apply Hdiff. vm_compute. discriminate.
Defined.

(** ** Key usages *)

(** C5, as it stands, fails: the server certificate a server proxy generates
    carries no extended key usage. *)
Lemma server_cert_without_server_auth :
  let s' := final (callInitCerts Sample.env Sample.globals "example.org"
                     (Sample.started ∅)) in
  exists sc,
    callInitCerts Sample.env Sample.globals "example.org" (Sample.started ∅)
      = Returned None s' ∧
    isUpstream Sample.globals = true ∧
    regeneratesServerCert (trace s') = true ∧
    serverCert s' = Some sc ∧
    keyman.issuer sc = keyman.X509 <$> caCert s' ∧
    x509.ExtKeyUsages (keyman.X509 sc) = [] ∧
    x509.ExtKeyUsages (keyman.X509 sc) ≠ [x509.ExtKeyUsageServerAuth].
Proof.
  intros s'. eexists. evaluate.
  vm_compute. discriminate.
Qed.

(** C5, amended.  A certificate [certificateFor] generates with an issuer
    has the key usage digital-signature + key-encipherment, no extended key
    usage, and the certificate of the issuer as its issuer. *)
Theorem certificateFor_leaf_usages env name v isCA ca s c s' :
  certificateFor env name v isCA (Some ca) s = Val (Some c, None) s' ->
  x509.KeyUsage (keyman.X509 c)
    = Z.lor x509.KeyUsageDigitalSignature x509.KeyUsageKeyEncipherment ∧
  x509.ExtKeyUsages (keyman.X509 c) = [] ∧
  keyman.issuer c = Some (keyman.X509 ca).
Proof.
  intros H. apply certificateFor_issued in H as (k & _ & ->).
  unfold issued. simpl. rewrite template_issuer. by repeat split.
Qed.

(** C5, amended, at work on the server certificate of [example.org]. *)
Lemma certificateFor_leaf_usages_witness :
  x509.KeyUsage
    (keyman.X509 (issued Sample.env "example.org" 0 true (Some Sample.soundCA)
                    Sample.key 0)) = 5 ∧
  x509.ExtKeyUsages
    (keyman.X509 (issued Sample.env "example.org" 0 true (Some Sample.soundCA)
                    Sample.key 0)) = [].
Proof.
  destruct (certificateFor_leaf_usages Sample.env "example.org" 0 true Sample.soundCA
              (Sample.keyed 0)
              (issued Sample.env "example.org" 0 true (Some Sample.soundCA) Sample.key 0)
              (withTicks 2
                 (withTrace [EvCertificateFor "example.org" 0 true (Some Sample.soundCA)]
                    (Sample.keyed 0))))
    as (Hku & Heku & _).
  - vm_compute. reflexivity.
  - split; [rewrite Hku; reflexivity | exact Heku].
Defined.

(** C10. With an issuer, the generated certificate does not depend on
    [isCA]: the CA flag is unset and there is no extended key usage.  With no
    issuer the CA flag is set and the extended key usage is
    server-authentication whatever [isCA] is, which decides only whether the
    key usage includes certificate-signing. *)
Theorem certificateFor_isCA env name v isCA issuer s c s' :
  certificateFor env name v isCA issuer s = Val (Some c, None) s' ->
  match issuer with
  | Some ca =>
      (exists k, c = issued env name v (negb isCA) (Some ca) k (ticks s)) ∧
      x509.IsCA (keyman.X509 c) = false ∧
      x509.ExtKeyUsages (keyman.X509 c) = []
  | None =>
      (exists k,
         x509.withKeyUsage 0 (keyman.X509 c) =
         x509.withKeyUsage 0 (keyman.X509 (issued env name v (negb isCA) None k (ticks s)))) ∧
      x509.IsCA (keyman.X509 c) = true ∧
      x509.ExtKeyUsages (keyman.X509 c) = [x509.ExtKeyUsageServerAuth] ∧
      x509.KeyUsage (keyman.X509 c) =
        (if isCA
         then Z.lor (Z.lor x509.KeyUsageKeyEncipherment x509.KeyUsageDigitalSignature)
                x509.KeyUsageCertSign
         else Z.lor x509.KeyUsageKeyEncipherment x509.KeyUsageDigitalSignature)
  end.
Proof.
  intros H. apply certificateFor_issued in H as (k & _ & ->).
  destruct issuer as [ca|]; unfold issued; simpl keyman.X509.
  - rewrite !template_issuer. split; [by exists k|]. by split.
  - rewrite !template_self_signed. split; [by exists k|]. by repeat split.
Qed.

(** C10 at work: the server certificate is asked for with [isCA] set. *)
Lemma certificateFor_isCA_witness :
  x509.IsCA
    (keyman.X509 (issued Sample.env "example.org" 0 true (Some Sample.soundCA)
                    Sample.key 0)) = false.
Proof.
  refine (proj1 (proj2
    (certificateFor_isCA Sample.env "example.org" 0 true (Some Sample.soundCA)
       (Sample.keyed 0)
       (issued Sample.env "example.org" 0 true (Some Sample.soundCA) Sample.key 0)
       (withTicks 2
          (withTrace [EvCertificateFor "example.org" 0 true (Some Sample.soundCA)]
             (Sample.keyed 0))) _))).
  vm_compute. reflexivity.
Defined.

(** The server certificate is the one certificate [initCerts] asks for with
    an issuer, and it asks for it with [isCA] set. *)
Lemma initCerts_asks_CA_server_cert :
  In (EvCertificateFor "example.org" (ONE_YEAR_FROM_TODAY Sample.globals) true
        (Some (issued Sample.env "Lantern" (TEN_YEARS_FROM_TODAY Sample.globals)
                 true None Sample.key 4)))
     (trace (final (callInitCerts Sample.env Sample.globals "example.org"
                      (Sample.started ∅)))).
Proof. vm_compute. tauto. Qed.

(** ** The tunnel, step by step *)

#[local] Opaque String.append.

Section TunnelFacts.

Context (cp : ClientProtocol) (RequestWrite : Request -> string) (addr : string).


Lemma run_cons ch sched s :
  run cp RequestWrite addr (ch :: sched) s = run cp RequestWrite addr sched (step cp RequestWrite addr ch s).
Proof. reflexivity. Qed.

Lemma step_log ch s :
  exists new, log (step cp RequestWrite addr ch s) = log s ++ new.
Proof.
  tunnel_unfold.
  tunnel_cases; eauto using app_nil_r; rewrite <- ?app_assoc; eauto.
  all: by exists [].
Qed.

Lemma run_log sched s :
  exists new, log (run cp RequestWrite addr sched s) = log s ++ new.
Proof.
  revert s. induction sched as [|ch sched IH]; intros s.
  - exists []. by rewrite app_nil_r.
  - rewrite run_cons. destruct (IH (step cp RequestWrite addr ch s)) as [new2 ->].
    destruct (step_log ch s) as [new1 ->].
    exists (new1 ++ new2). by rewrite app_assoc.
Qed.

Lemma step_inConn_closed ch s :
  closed (inConn s) = true -> inConn (step cp RequestWrite addr ch s) = inConn s.
Proof.
  intros Hc. tunnel_unfold. unfold alive in *.
  tunnel_cases.
  all: try (destruct (inConn s); simpl in *; congruence).
  all: try (rewrite Hc in *; simplify_eq/=; done).
Qed.

Lemma run_inConn_closed sched s :
  closed (inConn s) = true -> inConn (run cp RequestWrite addr sched s) = inConn s.
Proof.
  revert s. induction sched as [|ch sched IH]; intros s Hc; [done|].
  rewrite run_cons, IH; rewrite step_inConn_closed; done.
Qed.

Lemma reads_app l1 l2 : reads (l1 ++ l2) = reads l1 ++ reads l2.
Proof. apply omap_app. Qed.

Lemma upstreamWrites_app l1 l2 :
  upstreamWrites (l1 ++ l2) = upstreamWrites l1 ++ upstreamWrites l2.
Proof. apply omap_app. Qed.

Lemma firstRequest_app l1 l2 req :
  firstRequest l1 = Some req -> firstRequest (l1 ++ l2) = Some req.
Proof.
  unfold firstRequest. rewrite reads_app.
  destruct (reads l1) as [|[] ?]; by simpl.
Qed.

Lemma stepCopier_decoder n i s :
  decoder (stepCopier n i s) = decoder s ∧
  List.filter byDecoder (log (stepCopier n i s)) = List.filter byDecoder (log s).
Proof.
  tunnel_unfold.
  tunnel_cases; rewrite ?List.filter_app; simpl; by rewrite ?app_nil_r.
Qed.





Lemma step_quiescent ch s :
  decoder s = Some Done -> copiers s = [] -> step cp RequestWrite addr ch s = s.
Proof.
  intros Hd Hc. unfold step, stepDecoder, stepCopier.
  rewrite Hd, Hc. destruct (crashed s), ch; done.
Qed.

Lemma run_quiescent sched s :
  decoder s = Some Done -> copiers s = [] -> run cp RequestWrite addr sched s = s.
Proof.
  intros Hd Hc. induction sched as [|ch sched IH]; [done|].
  by rewrite run_cons, step_quiescent.
Qed.

Lemma step_effect ch s :
  exists new,
    log (step cp RequestWrite addr ch s) = log s ++ new ∧
    (dead (outConn s) ->
     dead (outConn (step cp RequestWrite addr ch s)) ∧
     Forall (fun w => w.2 = ""%string) (upstreamWrites new)).
Proof.
  tunnel_unfold. unfold dead, alive.
  tunnel_cases; rewrite <- ?app_assoc;
    (first [ eexists; split; [reflexivity|] | exists []; split; [by rewrite app_nil_r|] ]);
    simpl; intros Hdead; try (split; [done|]); repeat constructor; try done;
    congruence.
Qed.

Lemma firstRequestCut_cut l c e l' :
  upstreamWrites l = [] ->
  firstRequestCut (l ++ ReadChunk Decoder c (ChunkErr e) :: l') = true.
Proof.
  induction l as [|a l IH]; [done|].
  intros H. destruct a as [r|who c0 r|who c0 data got|who c0]; simpl in *.
  - by apply IH.
  - destruct who; [by apply IH| |by apply IH]. destruct r; try done; by apply IH.
  - destruct c0; [by apply IH|done].
  - by apply IH.
Qed.

Lemma firstRequestCut_app l l' :
  firstRequestCut l = true -> firstRequestCut (l ++ l') = true.
Proof.
  induction l as [|a l IH]; [done|].
  destruct a as [r|who c0 r|who c0 data got|who c0]; simpl; try done.
  - destruct who; try done. by destruct r.
  - by destruct c0.
Qed.

Lemma tunnelInv_step ch s :
  tunnelInv cp RequestWrite addr s -> tunnelInv cp RequestWrite addr (step cp RequestWrite addr ch s).
Proof.
  intros [(Hcop & Hup & Hdec)|(req & sent & rest & Hfirst & Hup & Hsent)].
  - (* nothing has been written upstream yet *)
    unfold step. destruct (crashed s) eqn:Hcr; [by left|].
    destruct ch as [i|n i].
    2: { unfold stepCopier. rewrite Hcop. by left. }
    unfold stepDecoder.
    destruct (decoder s) as [[| msg | msg | q | |]|] eqn:Hd; try done; try (by left; rewrite ?Hd).
    + (* the read *)
      left. destruct (request i) as [r| |e] eqn:Hi; simpl;
        rewrite ?upstreamWrites_app, ?reads_app, ?Hup, ?Hdec; simpl;
        repeat split; try done. by exists r.
    + (* connOut.Close() *)
      left. unfold close, conn. destruct (outConn s) as [c|] eqn:Ho; simpl;
        [rewrite Hcr|]; simpl; rewrite ?upstreamWrites_app, ?Hup, ?Hd; done.
    + (* respondBadGateway *)
      left. tunnel_unfold. simpl.
      destruct (alive (inConn s)); destruct (limit i); simpl;
        rewrite ?upstreamWrites_app, ?Hup; done.
    + (* req.Write(connOut) *)
      destruct Hdec as (r & Hr & ->).
      unfold writeRequest, write, conn. destruct (outConn s) as [c|] eqn:Ho.
      2: { left. destruct (bodyError i) as [[m e]|]; unfold crash; simpl; rewrite Hd;
           repeat split; try done; by exists r. }
      destruct (bodyError i) as [[m e]|].
      * (* the body of the request cannot be read to its end *)
        unfold connWrite.
        destruct (alive c) eqn:Ha; [destruct (limit i)|]; simpl; rewrite Hcr; simpl.
        all: right; eexists r, _, []; unfold withDecoder, logged; cbn [log outConn].
        all: (split; [by unfold firstRequest; rewrite !reads_app, Hr|]).
        all: rewrite !upstreamWrites_app, Hup; simpl; (split; [reflexivity|]).
        all: right; left; rewrite <- app_assoc; by apply firstRequestCut_cut.
      * simpl. unfold connWrite.
        destruct (alive c) eqn:Ha; [destruct (limit i)|]; simpl; rewrite Hcr; simpl.
        all: right; eexists r, _, []; unfold withDecoder, logged; cbn [log outConn].
        all: (split; [by unfold firstRequest; rewrite reads_app, Hr|]).
        all: rewrite upstreamWrites_app, Hup; simpl; (split; [reflexivity|]).
        -- right; right. split; [|done]. unfold alive. simpl. by rewrite andb_false_r.
        -- by left.
        -- right; right. by split.
  - (* the first request has been written *)
    right. destruct (step_effect ch s) as (new & Hlog & Hdead).
    exists req, sent, (rest ++ upstreamWrites new). rewrite Hlog.
    split; [by apply firstRequest_app|].
    split; [by rewrite upstreamWrites_app, Hup|].
    destruct Hsent as [->|[Hcut|[Hd Hrest]]];
      [by left|right; left; by apply firstRequestCut_app|right; right].
    destruct (Hdead Hd). split; [done|]. by apply Forall_app.
Qed.

Lemma tunnelInv_run sched s :
  tunnelInv cp RequestWrite addr s -> tunnelInv cp RequestWrite addr (run cp RequestWrite addr sched s).
Proof.
  revert s. induction sched as [|ch sched IH]; intros s H; [done|].
  rewrite run_cons. by apply IH, tunnelInv_step.
Qed.

Lemma tunnelInv_handleClientMITM connIn lim :
  tunnelInv cp RequestWrite addr (handleClientMITM cp addr connIn lim).
Proof.
  left. unfold handleClientMITM. destruct (dial cp addr) as [co [e|]]; [|done].
  tunnel_unfold. simpl. destruct (alive connIn); destruct lim; done.
Qed.

(** ** A failed dial *)

(** C6. When the dial fails with the error [e], the first two calls on the
    local connection are the write of the line
    [HTTP/1.1 502 Bad Gateway: Unable to dial upstream proxy: e] and the close
    of the connection, whatever runs afterwards; the connection stays closed,
    and when it was in order and the write goes through, the line is all the
    local client ever receives from the tunnel. *)
Theorem dial_failure_answered connIn lim sched e :
  (dial cp addr).2 = Some e ->
  let s := run cp RequestWrite addr sched (handleClientMITM cp addr connIn lim) in
  let line := badGateway ("Unable to dial upstream proxy: " +:+ e) in
  (exists got rest,
     log s = Wrote Handler ConnIn line got :: Closed Handler ConnIn :: rest ∧
     (alive connIn = true -> lim = None -> got = line)) ∧
  closed (inConn s) = true ∧
  (alive connIn = true -> lim = None -> received (inConn s) = received connIn +:+ line).
Proof.
  intros Hdial s line. subst s.
  destruct (run_log sched (handleClientMITM cp addr connIn lim)) as [rest Hlog].
  rewrite Hlog.
  assert (closed (inConn (handleClientMITM cp addr connIn lim)) = true) as Hclosed.
  { unfold handleClientMITM. destruct (dial cp addr) as [co err]. simpl in Hdial. subst err.
    tunnel_unfold. by tunnel_cases. }
  rewrite (run_inConn_closed _ _ Hclosed). split; [|split; [done|]].
  - unfold handleClientMITM. destruct (dial cp addr) as [co err]. simpl in Hdial. subst err.
    tunnel_unfold. unfold badGateway in *.
    simpl. destruct (alive connIn) eqn:Ha; destruct lim; simpl; eexists _, _; (split; [reflexivity|]); try done.
  - intros Ha ->. unfold handleClientMITM.
    destruct (dial cp addr) as [co err]. simpl in Hdial. subst err.
    tunnel_unfold. simpl. rewrite Ha. done.
Qed.

(** ** The decode loop *)


(** ** The bytes the upstream proxy receives *)

Lemma sentUpstream_app l1 l2 : sentUpstream (l1 ++ l2) = sentUpstream l1 +:+ sentUpstream l2.
Proof.
  unfold sentUpstream. rewrite upstreamWrites_app.
  induction (upstreamWrites l1) as [|w l IH]; simpl; [done|].
  by rewrite IH, append_assoc.
Qed.

Lemma step_received ch s c :
  outConn s = Some c ->
  exists c' new,
    outConn (step cp RequestWrite addr ch s) = Some c' ∧
    log (step cp RequestWrite addr ch s) = log s ++ new ∧
    received c' = received c +:+ sentUpstream new.
Proof.
  intros Hc. tunnel_unfold. rewrite Hc.
  tunnel_cases; rewrite <- ?app_assoc;
    eexists _,_; (split; [first [reflexivity|eassumption]|]);
    (split; [first [reflexivity | symmetry; apply app_nil_r]|]);
    unfold sentUpstream; simpl; by rewrite ?append_nil_r.
Qed.

Lemma run_received sched s c :
  outConn s = Some c ->
  exists c',
    outConn (run cp RequestWrite addr sched s) = Some c' ∧
    received c' = received c +:+ 
       sentUpstream (drop (length (log s)) (log (run cp RequestWrite addr sched s))).
Proof.
  revert s c. induction sched as [|ch sched IH]; intros s c Hc.
  - exists c. split; [done|]. simpl. rewrite drop_all. by rewrite append_nil_r.
  - rewrite run_cons. destruct (step_received ch s c Hc) as (c1 & new & Hc1 & Hlog & Hr).
    destruct (IH _ _ Hc1) as (c' & Hc' & Hr'). exists c'. split; [done|].
    destruct (run_log sched (step cp RequestWrite addr ch s)) as [new2 Hlog2].
    rewrite Hr', Hr, Hlog2, Hlog. rewrite <- !app_assoc, !drop_app_length.
    rewrite (app_assoc (log s)), drop_app_length. 
    by rewrite sentUpstream_app, append_assoc.
Qed.

Lemma handleClientMITM_start connIn lim :
  outConn (handleClientMITM cp addr connIn lim) = (dial cp addr).1 ∧
  upstreamWrites (log (handleClientMITM cp addr connIn lim)) = [].
Proof.
  unfold handleClientMITM. destruct (dial cp addr) as [co [e|]]; [|done].
  tunnel_unfold. simpl. destruct (alive connIn); destruct lim; done.
Qed.

Lemma handleClientMITM_received connIn lim sched c0 :
  (dial cp addr).1 = Some c0 ->
  exists c,
    outConn (run cp RequestWrite addr sched (handleClientMITM cp addr connIn lim)) = Some c ∧
    received c = received c0 +:+
      sentUpstream (log (run cp RequestWrite addr sched (handleClientMITM cp addr connIn lim))).
Proof.
  intros Hdial. destruct (handleClientMITM_start connIn lim) as [Ho Hup].
  rewrite Hdial in Ho.
  destruct (run_received sched _ _ Ho) as (c & Hc & Hr). exists c. split; [done|].
  rewrite Hr. f_equal.
  destruct (run_log sched (handleClientMITM cp addr connIn lim)) as [new ->].
  rewrite drop_app_length, sentUpstream_app.
  unfold sentUpstream at 2. by rewrite Hup.
Qed.

(** ** The first request and the relay *)

(** C8, amended.  Whatever the schedule, a write of a goroutine of [pipe] on
    the upstream connection comes after the first write on that connection,
    which is the decoder's write of the rewritten first request.  Unless that
    write was cut short by the body of the request, a write of the goroutine
    of [pipe] that has sent anything comes after the whole of the rewritten
    first request has been sent, so that the bytes the upstream proxy has
    received on the connection since the dial begin with it. *)
Theorem first_request_precedes_relay connIn lim sched pre n data got post :
  upstreamWrites (log (run cp RequestWrite addr sched (handleClientMITM cp addr connIn lim)))
    = pre ++ (Copier n, data, got) :: post ->
  exists req sent pre',
    firstRequest (log (run cp RequestWrite addr sched (handleClientMITM cp addr connIn lim)))
      = Some req ∧
    pre = (Decoder, RequestWrite (rewrite cp (redirect addr req)), sent) :: pre' ∧
    (firstRequestCut
       (log (run cp RequestWrite addr sched (handleClientMITM cp addr connIn lim))) = false ->
     got ≠ ""%string ->
     sent = RequestWrite (rewrite cp (redirect addr req)) ∧
     forall c0, (dial cp addr).1 = Some c0 ->
       exists c tail,
         outConn (run cp RequestWrite addr sched (handleClientMITM cp addr connIn lim))
           = Some c ∧
         received c
           = received c0 +:+ RequestWrite (rewrite cp (redirect addr req)) +:+ tail).
Proof.
  intros Hsplit.
  destruct (tunnelInv_run sched _
              (tunnelInv_handleClientMITM connIn lim))
    as [(_ & Hup & _)|(req & sent & rest & Hfirst & Hup & Hsent)].
  - rewrite Hup in Hsplit. by destruct pre.
  - rewrite Hup in Hsplit. destruct pre as [|w pre']; [by simplify_eq|].
    injection Hsplit as <- Hrest. exists req, sent, pre'.
    split; [done|]. split; [done|].
    intros Hcut Hgot.
    assert (sent = RequestWrite (rewrite cp (redirect addr req))) as ->.
    { destruct Hsent as [->|[Hcut'|[_ Hall]]]; [done|congruence|].
      rewrite Hrest in Hall. apply Forall_app in Hall as [_ Hall].
      apply Forall_cons in Hall as [Hall _]. done. }
    split; [done|]. intros c0 Hdial.
    destruct (handleClientMITM_received connIn lim sched c0 Hdial) as (c & Hc & Hr).
    exists c. eexists. split; [done|]. rewrite Hr.
    unfold sentUpstream. rewrite Hup. simpl. reflexivity.
Qed.

End TunnelFacts.

(** ** The tunnel of [CONNECT origin.example:443] *)

(** C6 at work: the upstream proxy refuses the connection. *)
Lemma dial_failure_answered_witness :
  closed (inConn (run Sample.unreachable Sample.requestWrite "origin.example:443"
                    [RunDecoder Sample.eof] (Sample.tunnel Sample.unreachable))) = true ∧
  received (inConn (run Sample.unreachable Sample.requestWrite "origin.example:443"
                      [RunDecoder Sample.eof] (Sample.tunnel Sample.unreachable)))
  = "HTTP/1.1 502 Bad Gateway: Unable to dial upstream proxy: dial tcp: connection refused"%string.
Proof.
  pose proof (dial_failure_answered Sample.unreachable Sample.requestWrite
                "origin.example:443" Sample.freshConn None [RunDecoder Sample.eof]
                "dial tcp: connection refused" eq_refl) as H.
  cbv zeta in H. destruct H as (_ & Hclosed & Hreceived).
  split; [exact Hclosed|].
  etransitivity; [exact (Hreceived eq_refl eq_refl)|].
  vm_compute. reflexivity.
Defined.

(** C7, as the code has it after a failed dial.  The upstream proxy
    refuses the connection; [handleClientMITM] answers and closes the local
    connection, and starts the goroutine all the same, with a [nil]
    [connOut].  The read of the goroutine on the closed local connection
    fails, and its [connOut.Close()] panics: the read is the only call the
    goroutine has made, it has closed no upstream connection and sent no
    bad-gateway line, and the process is gone. *)
Theorem read_error_after_failed_dial_panics :
  let s := run Sample.unreachable Sample.requestWrite "origin.example:443"
             [ RunDecoder (Sample.input (ReadErr "use of closed network connection")
                             ChunkEOF);
               RunDecoder Sample.eof ]
             (Sample.tunnel Sample.unreachable) in
  crashed s = true ∧ outConn s = None ∧
  decoder s = Some (AtCloseOut "Unable to read request: use of closed network connection") ∧
  List.filter byDecoder (log s)
  = [ReadRequest (ReadErr "use of closed network connection")] ∧
  log s
  = [ Wrote Handler ConnIn
        "HTTP/1.1 502 Bad Gateway: Unable to dial upstream proxy: dial tcp: connection refused"
        "HTTP/1.1 502 Bad Gateway: Unable to dial upstream proxy: dial tcp: connection refused";
      Closed Handler ConnIn;
      ReadRequest (ReadErr "use of closed network connection") ].
Proof. intros s. evaluate. Qed.


(** C8, as it stands, fails: the body of the first request cannot be
    read, [req.Write] returns an error with nothing sent and the upstream
    connection in order, the error is dropped and [pipe] is started all the
    same; the three bytes its first goroutine passes on are all the upstream
    proxy receives. *)
Lemma relay_follows_cut_request :
  let s := run Sample.reachable Sample.requestWrite "origin.example:443"
             Sample.cutShort (Sample.tunnel Sample.reachable) in
  firstRequest (log s) = Some Sample.postForm ∧
  upstreamWrites (log s)
  = [ (Decoder, "POST /form HTTP/1.1 Host: cdn.example"%string, ""%string);
      (Copier 0, "abc"%string, "abc"%string) ] ∧
  Sample.requestWrite (rewrite Sample.reachable (redirect "origin.example:443" Sample.postForm))
  = "POST /form HTTP/1.1 Host: cdn.example"%string ∧
  outConn s = Some {| closed := false; broken := false; received := "abc" |} ∧
  crashed s = false.
Proof. intros s. evaluate. Qed.

(** C8, amended, at work: the first request is sent whole and three
    relayed bytes follow it. *)
Lemma first_request_precedes_relay_witness :
  exists req pre',
    firstRequest (log (run Sample.reachable Sample.requestWrite "origin.example:443"
                         Sample.relaying
                         (handleClientMITM Sample.reachable "origin.example:443"
                            Sample.freshConn None))) = Some req ∧
    [(Decoder, "GET / HTTP/1.1 Host: cdn.example"%string,
      "GET / HTTP/1.1 Host: cdn.example"%string)]
    = (Decoder,
       Sample.requestWrite (rewrite Sample.reachable (redirect "origin.example:443" req)),
       Sample.requestWrite (rewrite Sample.reachable (redirect "origin.example:443" req)))
      :: pre' ∧
    exists c tail,
      outConn (run Sample.reachable Sample.requestWrite "origin.example:443"
                 Sample.relaying
                 (handleClientMITM Sample.reachable "origin.example:443"
                    Sample.freshConn None)) = Some c ∧
      received c
      = received Sample.freshConn +:+
        Sample.requestWrite
          (rewrite Sample.reachable (redirect "origin.example:443" req)) +:+ tail.
Proof.
  destruct (first_request_precedes_relay Sample.reachable Sample.requestWrite
              "origin.example:443" Sample.freshConn None Sample.relaying
              [(Decoder, "GET / HTTP/1.1 Host: cdn.example"%string,
                "GET / HTTP/1.1 Host: cdn.example"%string)]
              0%nat "abc"%string "abc"%string [])
    as (req & sent & pre' & Hfirst & Hpre & Hrest).
  { vm_compute. reflexivity. }
  destruct Hrest as [-> Hrecv]; [vm_compute; reflexivity|done|].
  destruct (Hrecv Sample.freshConn eq_refl) as (c & tail & Hc & Hr).
  exists req, pre'. split; [exact Hfirst|]. split; [exact Hpre|].
  exists c, tail. split; [exact Hc|exact Hr].
Defined.

(** ** Connections left open *)

(** C9. The dial succeeds and the local client goes away before its first
    request: the first read returns the end of the stream.  The goroutine
    ends, no goroutine of [pipe] has been started, and the upstream
    connection is open; no schedule changes anything any more, so that it
    stays open. *)
Lemma eof_before_first_request_leaves_upstream_open :
  let s := run Sample.reachable Sample.requestWrite "origin.example:443"
             [RunDecoder Sample.eof] (Sample.tunnel Sample.reachable) in
  log s = [ReadRequest ReadEOF] ∧
  decoder s = Some Done ∧ copiers s = [] ∧ crashed s = false ∧
  outConn s = Some Sample.freshConn ∧ isClosed (outConn s) = false ∧
  closed (inConn s) = false ∧
  forall sched,
    run Sample.reachable Sample.requestWrite "origin.example:443" sched s = s.
Proof.
  intros s. evaluate. intros sched. by apply run_quiescent.
Qed.

(** The same once the relay has started: the local client goes away, the
    decoder and the copier that reads from the local connection see the end
    of the stream, and that copier closes the local connection.  As long as
    nothing arrives from the upstream proxy, on which the other copier
    waits, the upstream connection stays open. *)
Lemma relay_leaves_upstream_open_while_silent :
  let s := run Sample.reachable Sample.requestWrite "origin.example:443"
             (Sample.relaying
              ++ [RunDecoder Sample.eof; RunCopier 0 Sample.eof; RunCopier 0 Sample.eof])
             (Sample.tunnel Sample.reachable) in
  closed (inConn s) = true ∧ isClosed (outConn s) = false ∧
  forall sched,
    Forall (fun ch => forall i, ch ≠ RunCopier 1 i) sched ->
    run Sample.reachable Sample.requestWrite "origin.example:443" sched s = s.
Proof.
  intros s. evaluate. intros sched Hsched.
  induction Hsched as [|ch sched Hch _ IH]; [reflexivity|].
  rewrite run_cons.
  assert (step Sample.reachable Sample.requestWrite "origin.example:443" ch s = s) as ->;
    [|exact IH].
  destruct ch as [i|[|[|n]] i]; try (vm_compute; reflexivity).
  by destruct (Hch i).
Qed.

(** ** The sample runs are runs of the program *)

(** The package variables of the sample server proxy are those the
    initialisation computes, and [main] begins in [Sample.started]. *)
Lemma Sample_globals_initialised fs :
  initGlobals Sample.env Sample.serverFlags (processStart fs)
  = Val Sample.globals (Sample.started fs).
Proof. reflexivity. Qed.

(** One month from 2014-01-31 is 2014-03-03, as [AddDate] normalises the
    31st of February. *)
Lemma Sample_ONE_MONTH_FROM_TODAY :
  ONE_MONTH_FROM_TODAY Sample.globals
  = Sample.date 2014 3 3 + 12 * 3600 * time.nsPerSecond + 500000005.
Proof. vm_compute. reflexivity. Qed.

(** A client proxy that starts with an empty configuration directory
    generates a key and a CA certificate, adds the certificate to the trust
    store of the user, and generates no server certificate. *)
Lemma client_proxy_trusts_new_CA :
  match initGlobals Sample.env Sample.clientFlags (processStart ∅) with
  | Val g s =>
      let s' := final (callInitCerts Sample.env g "localhost" s) in
      callInitCerts Sample.env g "localhost" s = Returned None s' ∧
      isDownstream g = true ∧
      CA_CERT_FILE g = "flashlight/cacert.pem"%string ∧
      regeneratesCA (trace s') = true ∧
      regeneratesServerCert (trace s') = false ∧
      (exists ca, caCert s' = Some ca ∧ trustStore s' = [ca] ∧
                  stored (CA_CERT_FILE g) s' = Some ca) ∧
      serverCert s' = None
  | _ => False
  end.
Proof.
  vm_compute initGlobals. cbv beta iota zeta.
  evaluate. eexists. evaluate.
Qed.

(** * More of the program, verified *)

(** ** The files of the configuration directory *)

(** X1. [inConfigDir] keeps different file names apart, with and without
    a configuration directory, so that the key file, the CA certificate
    file and the server certificate file are three different paths. *)
Theorem config_files_are_distinct g :
  (forall a b, inConfigDir (flags g) a = inConfigDir (flags g) b <-> a = b) ∧
  PK_FILE g ≠ CA_CERT_FILE g ∧
  PK_FILE g ≠ SERVER_CERT_FILE g ∧
  CA_CERT_FILE g ≠ SERVER_CERT_FILE g.
Proof.
  split; [|split; [|split]].
  - intros a b. split; [apply inConfigDir_inj|by intros ->].
  - apply PK_FILE_not_CA_CERT_FILE.
  - apply PK_FILE_not_SERVER_CERT_FILE.
  - apply CA_CERT_FILE_not_SERVER_CERT_FILE.
Qed.

(** ** [initCerts], from the key to the trust store *)

(** X2. [initCerts] returns, with or without an error, whatever the files,
    the clock and the failures of its surroundings are: none of its uses of
    [pk], [caCert] and [serverCert] meets a nil pointer, since each of them
    comes after a load or a generation that has succeeded. *)
Theorem initCerts_never_panics env g host s :
  exists err s', callInitCerts env g host s = Returned err s'.
Proof.
  pose proof (initCerts_parts env g host s) as Hparts.
  pose proof (initCerts_pk_full env g s) as H1.
  destruct (initCerts_pk env g s) as [[] s1|e1 s1|s1]; [|by eauto|done].
  assert (exists k, pk s1 = Some k) as [k Hk].
  { destruct H1 as [_ H1]. destruct (storedKey (PK_FILE g) s).
    - subst s1. by eexists.
    - destruct H1 as (k & _ & _ & ? & _). by exists k. }
  pose proof (initCerts_caCert_full env g s1 k Hk) as H2.
  destruct (initCerts_caCert env g s1) as [err s2|e2 s2|s2]; [|by eauto|done].
  destruct H2 as (-> & Hk2 & _ & _ & _ & _ & ca & Hca & _).
  pose proof (initCerts_serverCert_full env g host None s2 ca k Hca Hk2) as H3.
  destruct (initCerts_serverCert env g host None s2) as [err' s3|e3 s3|s3]; by eauto.
Qed.

Lemma storedKey_frame path s s' :
  files s' !! path = files s !! path -> storedKey path s' = storedKey path s.
Proof. unfold storedKey. by intros ->. Qed.

Lemma initCerts_success_persisted env g host s s' :
  callInitCerts env g host s = Returned None s' -> persisted g s'.
Proof.
  intros Hrun.
  destruct (initCerts_success env g host s s' Hrun)
    as (s1 & s2 & k & ca & E1 & E2 & E3 & Hk1 & Hca2 & Hk2).
  pose proof (initCerts_pk_full env g s) as H1. rewrite E1 in H1.
  pose proof (initCerts_caCert_full env g s1 k Hk1) as H2. rewrite E2 in H2.
  pose proof (initCerts_serverCert_full env g host None s2 ca k Hca2 Hk2) as H3.
  rewrite E3 in H3.
  destruct H2 as (_ & _ & _ & _ & _ & Hf2 & ca' & Hca' & Hst2 & _).
  rewrite Hca2 in Hca'. injection Hca' as <-.
  destruct H3 as (Hca3 & Hk3 & _ & _ & Hf3 & H3).
  assert (storedKey (PK_FILE g) s1 = Some k) as HstK.
  { destruct H1 as [_ H1]. destruct (storedKey (PK_FILE g) s) eqn:Hs.
    - subst s1. simpl in Hk1. unfold storedKey in *. simpl. congruence.
    - destruct H1 as (k' & _ & _ & Hk' & Hf & _). unfold storedKey. rewrite Hf.
      rewrite lookup_insert_eq. congruence. }
  split; [|split].
  - exists k. split; [done|]. rewrite <- HstK.
    rewrite (storedKey_frame _ s2 s'), (storedKey_frame _ s1 s2); [done|..].
    + apply Hf2, PK_FILE_not_CA_CERT_FILE.
    + apply Hf3, PK_FILE_not_SERVER_CERT_FILE.
  - exists ca. split; [done|]. rewrite <- Hst2. apply stored_frame.
    apply Hf3, CA_CERT_FILE_not_SERVER_CERT_FILE.
  - intros Hup. rewrite Hup in H3. destruct H3 as (_ & sc & ? & ? & _). by exists sc.
Qed.

(** X3. When [initCerts] returns without an error, [pk] and [caCert] are
    set and the key file and the CA certificate file hold what they point
    to; on a server proxy the same goes for [serverCert] and its file. *)
Theorem initCerts_persisted env g host s s' :
  callInitCerts env g host s = Returned None s' -> persisted g s'.
Proof. apply initCerts_success_persisted. Qed.

(** X3 at work on a server proxy started with no file at all. *)
Lemma initCerts_persisted_witness :
  persisted Sample.globals
    (final (callInitCerts Sample.env Sample.globals "example.org" (Sample.started ∅))).
Proof.
  apply (initCerts_persisted Sample.env Sample.globals "example.org" (Sample.started ∅)).
  vm_compute. reflexivity.
Defined.

(** X4. [initCerts] has no error of its own: when key generation, the
    writing of files, signing and the trust store do not fail, it returns
    without an error, whatever the files hold. *)
Theorem initCerts_succeeds_when_nothing_fails env g host s :
  benign env -> exists s', callInitCerts env g host s = Returned None s'.
Proof.
  intros (Hgen & Hwrite & Hsign & Htrust).
  pose proof (initCerts_parts env g host s) as Hparts.
  pose proof (initCerts_pk_full env g s) as H1.
  destruct (initCerts_pk env g s) as [[] s1|e1 s1|s1]; [| |done].
  2: { destruct H1 as (_ & (e & _ & [He|[_ He]]) & _).
       - destruct (Hgen 2048) as [k Hk]. congruence.
       - rewrite Hwrite in He. done. }
  assert (exists k, pk s1 = Some k) as [k Hk].
  { destruct H1 as [_ H1]. destruct (storedKey (PK_FILE g) s).
    - subst s1. by eexists.
    - destruct H1 as (k & _ & _ & ? & _). by exists k. }
  assert (exists s2 ca, initCerts_caCert env g s1 = Val None s2 ∧ caCert s2 = Some ca
                        ∧ pk s2 = Some k) as (s2 & ca & E2 & Hca & Hk2).
  { destruct (renewalDue g (CA_CERT_FILE g) s1) eqn:Hdue.
    - unfold renewalDue, stored, aboutToExpire in Hdue. go_unfold. cbn.
      assert (forall c0 tr, certificateFor env "Lantern" (TEN_YEARS_FROM_TODAY g) true None
                (withTrace tr (withCaCert c0 s1)) = _) as Hg
        by (intros; apply (certificateFor_eq _ _ _ _ _ _ k); exact Hk).
      destruct (files s1 !! CA_CERT_FILE g) as [[| |]|] eqn:Hf; cbn;
        rewrite ?Hdue, ?Hg; cbn; rewrite Hsign; cbn; rewrite Hwrite; cbn;
        destruct (isDownstream g); cbn; rewrite ?Htrust; cbn; by eexists _, _.
    - unfold renewalDue in Hdue.
      destruct (stored (CA_CERT_FILE g) s1) as [c|] eqn:Hc; [|done].
      rewrite (initCerts_caCert_kept env g s1 c Hc Hdue). by eexists _, _. }
  rewrite E2 in Hparts.
  pose proof (initCerts_serverCert_full env g host None s2 ca k Hca Hk2) as H3.
  destruct (initCerts_serverCert env g host None s2) as [err' s3|e3 s3|s3] eqn:E3; [| |done].
  - exists s3. rewrite Hparts. destruct H3 as (_ & _ & _ & _ & _ & H3).
    destruct (isUpstream g); by destruct H3 as [-> _].
  - exfalso. clear Hparts H3. revert E3. go_unfold.
    destruct (isUpstream g); [|done]. cbn.
    assert (forall c0 tr, certificateFor env host (ONE_YEAR_FROM_TODAY g) true (Some ca)
              (withTrace tr (withServerCert c0 s2)) = _) as Hg
      by (intros; apply (certificateFor_eq _ _ _ _ _ _ k); exact Hk2).
    destruct (files s2 !! SERVER_CERT_FILE g) as [[| |]|] eqn:Hf; cbn; rewrite ?Hca; cbn.
    2: destruct (time.Before _ _); cbn; [|done].
    all: rewrite ?Hca, ?Hg; cbn; rewrite Hsign; cbn; rewrite Hwrite; cbn; done.
Qed.

(** X4 at work under the sample surroundings. *)
Lemma initCerts_succeeds_when_nothing_fails_witness :
  benign Sample.env ∧
  exists s', callInitCerts Sample.env Sample.globals "example.org"
               (Sample.started Sample.agingCAFiles) = Returned None s'.
Proof.
  assert (benign Sample.env) as H.
  { split; [|split; [|split]]; [intros nbits; eexists|intros path|intros t| ]; reflexivity. }
  split; [exact H|].
  exact (initCerts_succeeds_when_nothing_fails Sample.env Sample.globals "example.org"
           (Sample.started Sample.agingCAFiles) H).
Defined.

(** X5. A run of [initCerts] that returns without an error from a fresh
    process has generated a key exactly when the key file held no readable
    key.  A readable key is taken as it is and its file is left alone; a
    generated key has 2048 bits, is held in [pk] and is in the key file. *)
Theorem initCerts_key_policy env g host s s' :
  trace s = [] ->
  callInitCerts env g host s = Returned None s' ->
  regeneratesPK (trace s')
    = match storedKey (PK_FILE g) s with Some _ => false | None => true end ∧
  match storedKey (PK_FILE g) s with
  | Some k => pk s' = Some k ∧ files s' !! PK_FILE g = files s !! PK_FILE g
  | None => exists k, generatedKey env 2048 = inl k ∧ pk s' = Some k ∧
                      storedKey (PK_FILE g) s' = Some k
  end.
Proof.
  intros Htr Hrun.
  destruct (initCerts_success env g host s s' Hrun)
    as (s1 & s2 & k & ca & E1 & E2 & E3 & Hk1 & Hca2 & Hk2).
  pose proof (initCerts_pk_full env g s) as H1. rewrite E1 in H1.
  pose proof (initCerts_caCert_full env g s1 k Hk1) as H2. rewrite E2 in H2.
  pose proof (initCerts_serverCert_full env g host None s2 ca k Hca2 Hk2) as H3.
  rewrite E3 in H3.
  destruct H2 as (_ & _ & _ & Hev2 & _ & Hf2 & _).
  destruct H3 as (_ & Hk3 & _ & Hev3 & Hf3 & _).
  assert (files s' !! PK_FILE g = files s1 !! PK_FILE g) as Hf.
  { rewrite Hf3, Hf2; [done|..].
    - apply PK_FILE_not_CA_CERT_FILE.
    - apply PK_FILE_not_SERVER_CERT_FILE. }
  rewrite Hev3, Hev2. destruct H1 as [_ H1].
  destruct (storedKey (PK_FILE g) s) as [k0|] eqn:Hs.
  - subst s1. simpl in *. rewrite Htr. split; [done|]. split; [congruence|done].
  - destruct H1 as (k' & Hg & _ & Hk' & Hf1 & Hev1). split; [done|].
    exists k. rewrite Hk1 in Hk'. injection Hk' as <-. split; [done|]. split; [done|].
    unfold storedKey. by rewrite Hf, Hf1, lookup_insert_eq.
Qed.

(** X5 at work on a server proxy started with no file at all. *)
Lemma initCerts_key_policy_witness :
  let s := Sample.started ∅ in
  let s' := final (callInitCerts Sample.env Sample.globals "example.org" s) in
  regeneratesPK (trace s')
    = match storedKey (PK_FILE Sample.globals) s with Some _ => false | None => true end ∧
  match storedKey (PK_FILE Sample.globals) s with
  | Some k => pk s' = Some k ∧
              files s' !! PK_FILE Sample.globals = files s !! PK_FILE Sample.globals
  | None => exists k, generatedKey Sample.env 2048 = inl k ∧ pk s' = Some k ∧
                      storedKey (PK_FILE Sample.globals) s' = Some k
  end.
Proof.
  cbv zeta.
  apply (initCerts_key_policy Sample.env Sample.globals "example.org" (Sample.started ∅)).
  - reflexivity.
  - vm_compute. reflexivity.
Defined.

(** X6. A run of [initCerts] that returns without an error adds a
    certificate to the trust store of the system only on a client proxy
    that has generated a CA certificate in this run, and then it adds this
    CA certificate, once; in every other case the trust store is as it
    was. *)
Theorem initCerts_trust_store env g host s s' :
  callInitCerts env g host s = Returned None s' ->
  if isDownstream g && renewalDue g (CA_CERT_FILE g) s
  then exists ca, caCert s' = Some ca ∧ trustStore s' = trustStore s ++ [ca]
  else trustStore s' = trustStore s.
Proof.
  intros Hrun.
  destruct (initCerts_success env g host s s' Hrun)
    as (s1 & s2 & k & ca & E1 & E2 & E3 & Hk1 & Hca2 & Hk2).
  pose proof (initCerts_pk_full env g s) as H1. rewrite E1 in H1.
  pose proof (initCerts_caCert_full env g s1 k Hk1) as H2. rewrite E2 in H2.
  pose proof (initCerts_serverCert_full env g host None s2 ca k Hca2 Hk2) as H3.
  rewrite E3 in H3.
  destruct H3 as (Hca3 & _ & Hts3 & _).
  destruct H2 as (_ & _ & _ & _ & _ & _ & ca' & Hca' & _ & H2).
  rewrite Hca2 in Hca'. injection Hca' as <-.
  assert (trustStore s1 = trustStore s ∧
          renewalDue g (CA_CERT_FILE g) s1 = renewalDue g (CA_CERT_FILE g) s) as [Hts1 Hdue1].
  { destruct H1 as [Hts H1]. split; [done|]. unfold renewalDue.
    rewrite (stored_frame _ s s1); [done|].
    destruct (storedKey (PK_FILE g) s).
    - by subst s1.
    - destruct H1 as (? & _ & _ & _ & -> & _).
      apply lookup_insert_ne, PK_FILE_not_CA_CERT_FILE. }
  rewrite Hdue1 in H2. rewrite Hts3.
  destruct (renewalDue g (CA_CERT_FILE g) s).
  - destruct H2 as [_ ->]. destruct (isDownstream g); simpl; [|done].
    exists ca. by rewrite Hts1.
  - destruct H2 as [_ ->]. rewrite andb_false_r. simpl. done.
Qed.

(** X6 at work on a client proxy started with no file at all. *)
Lemma initCerts_trust_store_witness :
  let s := Sample.started ∅ in
  let s' := final (callInitCerts Sample.env Sample.clientGlobals "example.org" s) in
  if isDownstream Sample.clientGlobals
     && renewalDue Sample.clientGlobals (CA_CERT_FILE Sample.clientGlobals) s
  then exists ca, caCert s' = Some ca ∧ trustStore s' = trustStore s ++ [ca]
  else trustStore s' = trustStore s.
Proof.
  cbv zeta.
  apply (initCerts_trust_store Sample.env Sample.clientGlobals "example.org" (Sample.started ∅)).
  vm_compute. reflexivity.
Defined.

(** X7. On a client proxy [initCerts] has nothing to do with the server
    certificate: however it returns, [serverCert] and the server certificate
    file are as they were and no server certificate has been generated. *)
Theorem initCerts_client_leaves_server_cert env g host s err s' :
  isUpstream g = false ->
  callInitCerts env g host s = Returned err s' ->
  serverCert s' = serverCert s ∧
  files s' !! SERVER_CERT_FILE g = files s !! SERVER_CERT_FILE g ∧
  regeneratesServerCert (trace s') = regeneratesServerCert (trace s).
Proof.
  intros Hup Hrun. pose proof (initCerts_parts env g host s) as Hparts.
  pose proof (initCerts_pk_full env g s) as H1.
  pose proof (initCerts_pk_spec env g s) as H1'.
  destruct (initCerts_pk env g s) as [[] s1|e1 s1|s1]; [| |done].
  2: { rewrite Hparts in Hrun. injection Hrun as <- <-.
       destruct H1 as (_ & _ & Hf & _ & _ & _ & -> & _ & _ & ->).
       rewrite Hf; [done|]. intros E. by apply (PK_FILE_not_SERVER_CERT_FILE g). }
  destruct H1' as ([k Hk] & _ & Hsc1 & _ & Hf1 & _ & Hev1).
  pose proof (initCerts_caCert_full env g s1 k Hk) as H2.
  destruct (initCerts_caCert env g s1) as [e2 s2|e2 s2|s2]; [| |done].
  2: { rewrite Hparts in Hrun. injection Hrun as <- <-.
       destruct H2 as (_ & _ & -> & -> & ->).
       rewrite Hsc1, Hev1, Hf1; [done|]. intros E. by apply (PK_FILE_not_SERVER_CERT_FILE g). }
  destruct H2 as (_ & _ & Hsc2 & _ & Hev2 & Hf2 & _).
  rewrite (initCerts_serverCert_client env g host e2 s2 Hup) in Hparts.
  rewrite Hparts in Hrun. injection Hrun as <- <-.
  rewrite Hsc2, Hsc1, Hev2, Hev1, Hf2, Hf1; [done|..].
  - intros E. by apply (PK_FILE_not_SERVER_CERT_FILE g).
  - intros E. by apply (CA_CERT_FILE_not_SERVER_CERT_FILE g).
Qed.

(** X7 at work on a client proxy that finds the files of a server proxy. *)
Lemma initCerts_client_leaves_server_cert_witness :
  let s := Sample.started Sample.soundFiles in
  let s' := final (callInitCerts Sample.env Sample.clientGlobals "example.org" s) in
  serverCert s' = serverCert s ∧
  files s' !! SERVER_CERT_FILE Sample.clientGlobals
    = files s !! SERVER_CERT_FILE Sample.clientGlobals ∧
  regeneratesServerCert (trace s') = regeneratesServerCert (trace s).
Proof.
  cbv zeta.
  apply (initCerts_client_leaves_server_cert Sample.env Sample.clientGlobals "example.org"
           (Sample.started Sample.soundFiles) None).
  - reflexivity.
  - vm_compute. reflexivity.
Defined.

(** X8. When the key file holds no readable key and the generation of a
    key fails, or the writing of the generated key does, [initCerts] returns
    this very error and goes no further: it writes no file, no certificate
    is generated or loaded, and the trust store is as it was.  Every file
    but the key file is as it was; so is the key file when it is the
    generation that failed, and what a write that failed has left of it is
    not for the program to say. *)
Theorem initCerts_key_failure_is_fatal env g host s e :
  storedKey (PK_FILE g) s = None ->
  generatedKey env 2048 = inr e ∨
  (exists k, generatedKey env 2048 = inl k) ∧ writeError env (PK_FILE g) = Some e ->
  exists s',
    callInitCerts env g host s = Returned (Some e) s' ∧
    (forall path, path ≠ PK_FILE g -> files s' !! path = files s !! path) ∧
    (generatedKey env 2048 = inr e -> files s' = files s) ∧
    Forall (fun ev => match ev with
                      | EvWriteFile path _ => path = PK_FILE g ∧ generatedKey env 2048 ≠ inr e
                      | _ => True
                      end) (drop (length (trace s)) (trace s')) ∧
    caCert s' = caCert s ∧ serverCert s' = serverCert s ∧
    trustStore s' = trustStore s ∧
    regeneratesCA (trace s') = regeneratesCA (trace s) ∧
    regeneratesServerCert (trace s') = regeneratesServerCert (trace s).
Proof.
  intros Hs Hfail. pose proof (initCerts_parts env g host s) as Hparts.
  pose proof (initCerts_pk_full env g s) as H1.
  destruct (initCerts_pk env g s) as [[] s1|e1 s1|s1]; [| |done].
  - exfalso. destruct H1 as [_ H1]. rewrite Hs in H1.
    destruct H1 as (k & Hg & Hw & _). destruct Hfail as [?|[_ ?]]; congruence.
  - exists s1. rewrite Hparts.
    destruct H1 as (_ & (e' & -> & He') & Hf & Hfg & Hw & ? & ? & ? & ? & ?).
    assert (e' = e) as ->.
    { destruct Hfail as [Hg|[[k Hg] Hw0]], He' as [Hg'|[[k' Hg'] Hw']]; congruence. }
    split; [done|]. split; [exact Hf|]. split; [exact (Hfg e)|]. split; [|by repeat split].
    eapply List.Forall_impl; [|exact Hw]. intros [] Hev; try done.
    destruct Hev as [-> Hev]. by split.
Qed.

(** X8 at work where no file can be written: the key is generated, its
    write fails and leaves a key file that cannot be read. *)
Lemma initCerts_key_failure_is_fatal_witness :
  let s := Sample.started Sample.keylessFiles in
  exists s',
    callInitCerts Sample.fullDisk Sample.globals "example.org" s
      = Returned (Some "write: no space left on device"%string) s' ∧
    (forall path, path ≠ PK_FILE Sample.globals -> files s' !! path = files s !! path) ∧
    (generatedKey Sample.fullDisk 2048 = inr "write: no space left on device"%string ->
     files s' = files s) ∧
    Forall (fun ev => match ev with
                      | EvWriteFile path _ =>
                          path = PK_FILE Sample.globals ∧
                          generatedKey Sample.fullDisk 2048
                            ≠ inr "write: no space left on device"%string
                      | _ => True
                      end) (drop (length (trace s)) (trace s')) ∧
    caCert s' = caCert s ∧ serverCert s' = serverCert s ∧
    trustStore s' = trustStore s ∧
    regeneratesCA (trace s') = regeneratesCA (trace s) ∧
    regeneratesServerCert (trace s') = regeneratesServerCert (trace s).
Proof.
  cbv zeta.
  apply (initCerts_key_failure_is_fatal Sample.fullDisk Sample.globals "example.org"
           (Sample.started Sample.keylessFiles)).
  - vm_compute. reflexivity.
  - right. split; [eexists|]; reflexivity.
Defined.

Lemma withPk_id s k : pk s = k -> withPk k s = s.
Proof. intros <-. by destruct s. Qed.

Lemma withCaCert_id s c : caCert s = c -> withCaCert c s = s.
Proof. intros <-. by destruct s. Qed.

Lemma withServerCert_id s c : serverCert s = c -> withServerCert c s = s.
Proof. intros <-. by destruct s. Qed.

Lemma initCerts_caCert_sound env g host s s' ca :
  time.Before (TEN_YEARS_FROM_TODAY g) (ONE_MONTH_FROM_TODAY g) = false ->
  callInitCerts env g host s = Returned None s' ->
  caCert s' = Some ca -> aboutToExpire g ca = false.
Proof.
  intros Hlong Hrun Hca.
  destruct (initCerts_success env g host s s' Hrun)
    as (s1 & s2 & k & ca2 & E1 & E2 & E3 & Hk1 & Hca2 & Hk2).
  pose proof (initCerts_caCert_full env g s1 k Hk1) as H2. rewrite E2 in H2.
  pose proof (initCerts_serverCert_full env g host None s2 ca2 k Hca2 Hk2) as H3.
  rewrite E3 in H3. destruct H3 as (Hca3 & _).
  rewrite Hca in Hca3. injection Hca3 as ->.
  destruct H2 as (_ & _ & _ & _ & _ & _ & ca' & Hca' & _ & H2).
  rewrite Hca2 in Hca'. injection Hca' as <-.
  unfold renewalDue in H2.
  destruct (stored (CA_CERT_FILE g) s1) as [c|] eqn:Hst.
  - destruct (aboutToExpire g c) eqn:Hexp.
    + destruct H2 as [-> _]. unfold aboutToExpire. by rewrite issued_NotAfter.
    + destruct H2 as [[= ->] _]. done.
  - destruct H2 as [-> _]. unfold aboutToExpire. by rewrite issued_NotAfter.
Qed.

(** X9. [initCerts] settles the files: after a run that has returned
    without an error, a second run over the files it has left (with the
    same package variables, under any clock and any failures of the
    surroundings) returns without an error and changes nothing, neither
    the files nor the variables nor the trace. *)
Theorem initCerts_twice env env' g host s s' :
  time.Before (TEN_YEARS_FROM_TODAY g) (ONE_MONTH_FROM_TODAY g) = false ->
  callInitCerts env g host s = Returned None s' ->
  callInitCerts env' g host s' = Returned None s'.
Proof.
  intros Hlong Hrun.
  destruct (initCerts_success_persisted env g host s s' Hrun)
    as ((k & Hk & Hstk) & (ca & Hca & Hstca) & Hserver).
  pose proof (initCerts_caCert_sound env g host s s' ca Hlong Hrun Hca) as Hexp.
  pose proof (initCerts_parts env' g host s') as Hparts.
  pose proof (initCerts_pk_full env' g s') as H1.
  destruct (initCerts_pk env' g s') as [[] s1|e1 s1|s1]; [| |done].
  2: { destruct H1 as [? _]. congruence. }
  destruct H1 as [_ H1]. rewrite Hstk in H1.
  rewrite (withPk_id s' _ Hk) in H1. subst s1.
  rewrite (initCerts_caCert_kept env' g s' ca Hstca Hexp) in Hparts.
  rewrite (withCaCert_id s' _ Hca) in Hparts.
  destruct (isUpstream g) eqn:Hup.
  - destruct (Hserver eq_refl) as (sc & Hsc & Hstsc).
    rewrite (initCerts_serverCert_kept env' g host None s' sc ca Hup Hstsc Hca Hexp) in Hparts.
    by rewrite (withServerCert_id s' _ Hsc) in Hparts.
  - by rewrite (initCerts_serverCert_client env' g host None s' Hup) in Hparts.
Qed.

(** X9 at work: a server proxy is started with no file at all, and once
    more, under another clock, over the files of the first run. *)
Lemma initCerts_twice_witness :
  let s' := final (callInitCerts Sample.env Sample.globals "example.org"
                     (Sample.started ∅)) in
  callInitCerts Sample.fineEnv Sample.globals "example.org" s' = Returned None s'.
Proof.
  cbv zeta.
  apply (initCerts_twice Sample.env Sample.fineEnv Sample.globals "example.org"
           (Sample.started ∅)).
  - vm_compute. reflexivity.
  - vm_compute. reflexivity.
Defined.

(** X10. A lost key does not renew the certificates: when the key file
    holds no readable key and the CA certificate file holds a certificate
    that is not about to expire, a run that returns without an error holds a
    new key in [pk] and still the stored CA certificate in [caCert], and on
    a server proxy the stored server certificate in [serverCert], all of
    them issued for the key that is gone. *)
Theorem initCerts_new_key_keeps_certificates env g host s s' ca :
  callInitCerts env g host s = Returned None s' ->
  storedKey (PK_FILE g) s = None ->
  stored (CA_CERT_FILE g) s = Some ca -> aboutToExpire g ca = false ->
  exists k, generatedKey env 2048 = inl k ∧ pk s' = Some k ∧ caCert s' = Some ca ∧
            (forall sc, isUpstream g = true -> stored (SERVER_CERT_FILE g) s = Some sc ->
                        serverCert s' = Some sc).
Proof.
  intros Hrun Hsk Hst Hexp.
  destruct (initCerts_success env g host s s' Hrun)
    as (s1 & s2 & k & ca2 & E1 & E2 & E3 & Hk1 & Hca2 & Hk2).
  pose proof (initCerts_pk_full env g s) as H1. rewrite E1 in H1.
  destruct H1 as [_ H1]. rewrite Hsk in H1.
  destruct H1 as (k' & Hg & _ & Hk' & Hf1 & _).
  rewrite Hk1 in Hk'. injection Hk' as <-.
  assert (stored (CA_CERT_FILE g) s1 = Some ca) as Hst1.
  { rewrite <- Hst. apply stored_frame. rewrite Hf1.
    apply lookup_insert_ne, PK_FILE_not_CA_CERT_FILE. }
  rewrite (initCerts_caCert_kept env g s1 ca Hst1 Hexp) in E2.
  injection E2 as <-.
  pose proof (initCerts_serverCert_full env g host None (withCaCert (Some ca) s1) ca k
                eq_refl Hk1) as H3.
  rewrite E3 in H3. destruct H3 as (Hca3 & Hk3 & _ & _ & _ & H3).
  exists k. split; [done|]. split; [done|]. split; [done|].
  intros sc Hup Hsc. rewrite Hup in H3.
  destruct H3 as (_ & sc' & Hsc' & _ & H3).
  assert (stored (SERVER_CERT_FILE g) (withCaCert (Some ca) s1) = Some sc) as Hsc1.
  { rewrite <- Hsc. apply stored_frame. simpl. rewrite Hf1.
    apply lookup_insert_ne, PK_FILE_not_SERVER_CERT_FILE. }
  destruct (H3 Hexp) as [[Hs _]|Hs]; congruence.
Qed.

(** X10 at work on a server proxy whose certificates are in order and whose
    key file is gone. *)
Lemma initCerts_new_key_keeps_certificates_witness :
  let s := Sample.started Sample.keylessFiles in
  let s' := final (callInitCerts Sample.env Sample.globals "example.org" s) in
  exists k, generatedKey Sample.env 2048 = inl k ∧ pk s' = Some k ∧
            caCert s' = Some Sample.soundCA ∧
            (forall sc, isUpstream Sample.globals = true ->
                        stored (SERVER_CERT_FILE Sample.globals) s = Some sc ->
                        serverCert s' = Some sc).
Proof.
  cbv zeta.
  apply (initCerts_new_key_keeps_certificates Sample.env Sample.globals "example.org"
           (Sample.started Sample.keylessFiles)).
  - vm_compute. reflexivity.
  - vm_compute. reflexivity.
  - vm_compute. reflexivity.
  - vm_compute. reflexivity.
Defined.

(** ** Hosts and ports *)

#[local] Transparent String.append.

Lemma prefix_colon c r : String.prefix ":" (String c r) = Ascii.eqb c ":"%char.
Proof.
  change (String.prefix ":" (String c r))
    with (match ascii_dec ":" c with
          | left _ => String.prefix "" r
          | right _ => false
          end).
  destruct (ascii_dec ":" c) as [<-|Hne].
  - by destruct r.
  - symmetry. apply Ascii.eqb_neq. congruence.
Qed.

Lemma Contains_colon_cons c r :
  Contains (String c r) ":" = Ascii.eqb c ":"%char || Contains r ":".
Proof.
  change (Contains (String c r) ":")
    with (if String.prefix ":" (String c r) then true else Contains r ":").
  by rewrite prefix_colon.
Qed.

Lemma Contains_colon_append h p :
  Contains (h +:+ p) ":" = Contains h ":" || Contains p ":".
Proof.
  induction h as [|c h IH]; [done|].
  change (String c h +:+ p) with (String c (h +:+ p)).
  rewrite !Contains_colon_cons, IH. by rewrite orb_assoc.
Qed.

Lemma beforeColon_no_colon s : Contains (beforeColon s) ":" = false.
Proof.
  induction s as [|c s IH]; [done|]. simpl.
  destruct (Ascii.eqb c ":") eqn:Hc; [done|].
  by rewrite Contains_colon_cons, Hc, IH.
Qed.

Lemma beforeColon_id s : Contains s ":" = false -> beforeColon s = s.
Proof.
  induction s as [|c s IH]; [done|]. rewrite Contains_colon_cons.
  intros [Hc Hs]%orb_false_elim. simpl. rewrite Hc. by rewrite IH.
Qed.

Lemma beforeColon_append h p :
  beforeColon (h +:+ String ":" p) = beforeColon h.
Proof.
  induction h as [|c h IH]; [done|].
  change (String c h +:+ String ":" p) with (String c (h +:+ String ":" p)).
  simpl. by rewrite IH.
Qed.

Lemma beforeColon_split s :
  exists rest, s = beforeColon s +:+ rest ∧ (rest = ""%string ∨ String.prefix ":" rest = true).
Proof.
  induction s as [|c s (rest & IH & Hrest)]; [by exists ""%string; split; [|left]|].
  simpl. destruct (Ascii.eqb c ":") eqn:Hc.
  - exists (String c s). split; [done|]. right. by rewrite prefix_colon.
  - exists rest. split; [|done].
    change (String c (beforeColon s) +:+ rest) with (String c (beforeColon s +:+ rest)).
    by rewrite <- IH.
Qed.

(** X11. The result of [hostIncludingPort] holds a colon; a host that
    holds one already is returned as it is, so that a second application
    changes nothing. *)
Theorem hostIncludingPort_has_port req :
  Contains (hostIncludingPort req) ":" = true ∧
  (Contains (RequestHost req) ":" = true -> hostIncludingPort req = RequestHost req) ∧
  forall req', RequestHost req' = hostIncludingPort req ->
               hostIncludingPort req' = hostIncludingPort req.
Proof.
  assert (Contains (hostIncludingPort req) ":" = true) as H.
  { unfold hostIncludingPort. destruct (Contains (RequestHost req) ":") eqn:Hc; simpl; [done|].
    rewrite Contains_colon_append. by rewrite orb_true_r. }
  split; [done|]. split.
  - intros Hc. unfold hostIncludingPort. by rewrite Hc.
  - intros req' Hreq'. unfold hostIncludingPort at 1. by rewrite Hreq', H.
Qed.

(** X12. The host that [handleClientMITM] cuts out of an address made by
    [hostIncludingPort] is the part of the request's host before its first
    colon: the whole host when it names no port. *)
Theorem hostIncludingPort_beforeColon req :
  beforeColon (hostIncludingPort req) = beforeColon (RequestHost req) ∧
  (Contains (RequestHost req) ":" = false ->
   beforeColon (hostIncludingPort req) = RequestHost req).
Proof.
  assert (beforeColon (hostIncludingPort req) = beforeColon (RequestHost req)) as H.
  { unfold hostIncludingPort. destruct (Contains (RequestHost req) ":"); simpl; [done|].
    apply beforeColon_append. }
  split; [done|]. intros Hc. rewrite H. by apply beforeColon_id.
Qed.

(** X13. The URL of a request that [handleClientMITM] has redirected has
    the scheme https and, as host, the part of [addr] before its first
    colon: [addr] is this host, followed by nothing or by a colon and the
    rest; the host holds no colon, and is all of [addr] when [addr] holds
    none. *)
Theorem redirect_host addr req :
  Scheme (url (redirect addr req)) = "https"%string ∧
  Contains (Host (url (redirect addr req))) ":" = false ∧
  (exists rest, addr = Host (url (redirect addr req)) +:+ rest ∧
                (rest = ""%string ∨ String.prefix ":" rest = true)) ∧
  (Contains addr ":" = false -> Host (url (redirect addr req)) = addr).
Proof.
  simpl. split; [done|]. split; [apply beforeColon_no_colon|].
  split; [apply beforeColon_split|apply beforeColon_id].
Qed.

#[local] Opaque String.append.

(** ** The goroutines of the tunnel, in every interleaving *)

Section MoreTunnelFacts.

Context (cp : ClientProtocol) (RequestWrite : Request -> string) (addr : string).

Lemma handleClientMITM_init connIn lim :
  decoder (handleClientMITM cp addr connIn lim) = Some AtRead ∧
  copiers (handleClientMITM cp addr connIn lim) = [] ∧
  crashed (handleClientMITM cp addr connIn lim) = false ∧
  outConn (handleClientMITM cp addr connIn lim) = (dial cp addr).1 ∧
  reads (log (handleClientMITM cp addr connIn lim)) = [] ∧
  upstreamWrites (log (handleClientMITM cp addr connIn lim)) = [] ∧
  (forall n c, ¬ In (Closed (Copier n) c) (log (handleClientMITM cp addr connIn lim))).
Proof.
  unfold handleClientMITM. destruct (dial cp addr) as [co [e|]].
  2: { repeat split; try done. intros n c []. }
  tunnel_unfold. simpl. destruct (alive connIn); destruct lim; simpl; repeat split; try done.
  all: intros m c [H|[H|[]]]; discriminate.
Qed.

Lemma step_no_crash ch s :
  is_Some (outConn s) -> crashed s = false ->
  crashed (step cp RequestWrite addr ch s) = false ∧
  is_Some (outConn (step cp RequestWrite addr ch s)).
Proof.
  intros [c Hc] Hcr. tunnel_unfold. rewrite Hcr, Hc.
  tunnel_cases; eauto.
Qed.

(** X14. When the dial to the upstream proxy succeeds, no interleaving of
    the goroutines of [handleClientMITM] and [pipe] panics. *)
Theorem tunnel_never_panics connIn lim sched c0 :
  (dial cp addr).1 = Some c0 ->
  crashed (run cp RequestWrite addr sched (handleClientMITM cp addr connIn lim)) = false.
Proof.
  intros Hdial.
  destruct (handleClientMITM_init connIn lim) as (_ & _ & Hcr & Ho & _).
  rewrite Hdial in Ho.
  assert (is_Some (outConn (handleClientMITM cp addr connIn lim))) as Hs by by eexists.
  clear Ho. revert Hcr Hs. generalize (handleClientMITM cp addr connIn lim).
  induction sched as [|ch sched IH]; intros s Hcr Hs; [done|].
  rewrite run_cons. destruct (step_no_crash ch s Hs Hcr). by apply IH.
Qed.

Lemma run_crashed sched s :
  crashed s = true -> run cp RequestWrite addr sched s = s.
Proof.
  intros Hcr. induction sched as [|ch sched IH]; [done|].
  rewrite run_cons. unfold step. by rewrite Hcr.
Qed.

(** X15. When the dial fails, the goroutine of [handleClientMITM] runs
    with a nil [connOut]: it ends in peace only if its first read meets the
    end of the stream; after any other first read, a request as well as an
    error, its next step panics. *)
Theorem failed_dial_panics_on_first_request connIn lim i i' sched :
  (dial cp addr).1 = None ->
  (request i = ReadEOF ->
   crashed (run cp RequestWrite addr (RunDecoder i :: sched)
              (handleClientMITM cp addr connIn lim)) = false) ∧
  (request i ≠ ReadEOF ->
   crashed (run cp RequestWrite addr (RunDecoder i :: RunDecoder i' :: sched)
              (handleClientMITM cp addr connIn lim)) = true).
Proof.
  intros Hdial.
  destruct (handleClientMITM_init connIn lim) as (Hd & Hcop & Hcr & Ho & _).
  rewrite Hdial in Ho. revert Hd Hcop Hcr Ho.
  generalize (handleClientMITM cp addr connIn lim). intros s Hd Hcop Hcr Ho.
  split; intros Hi.
  - rewrite run_cons.
    assert (step cp RequestWrite addr (RunDecoder i) s
            = withDecoder (Some Done) (logged (ReadRequest ReadEOF) s)) as ->
      by (unfold step, stepDecoder; by rewrite Hcr, Hd, Hi).
    rewrite run_quiescent; [exact Hcr|reflexivity|exact Hcop].
  - rewrite !run_cons.
    assert (crashed (step cp RequestWrite addr (RunDecoder i')
                       (step cp RequestWrite addr (RunDecoder i) s)) = true) as Hcrash.
    { destruct (request i) as [req| |e] eqn:Hr; [|done|].
      - assert (step cp RequestWrite addr (RunDecoder i) s
                = withDecoder (Some (AtWrite (rewrite cp (redirect addr req))))
                    (logged (ReadRequest (ReadOk req)) s)) as ->
          by (unfold step, stepDecoder; by rewrite Hcr, Hd, Hr).
        unfold step, stepDecoder, writeRequest, write, conn. simpl. rewrite Hcr.
        destruct (bodyError i') as [[m e]|]; by rewrite Ho.
      - assert (step cp RequestWrite addr (RunDecoder i) s
                = withDecoder (Some (AtCloseOut ("Unable to read request: " +:+ e)))
                    (logged (ReadRequest (ReadErr e)) s)) as ->
          by (unfold step, stepDecoder; by rewrite Hcr, Hd, Hr).
        unfold step, stepDecoder, close, conn. simpl. by rewrite Hcr, Ho. }
    by rewrite run_crashed.
Qed.

Lemma step_conn_closed ch s name c :
  conn name s = Some c -> closed c = true ->
  conn name (step cp RequestWrite addr ch s) = Some c.
Proof.
  intros Hc Hcl. tunnel_unfold. unfold alive in *.
  destruct name; simpl in *.
  all: tunnel_cases.
  all: try (destruct c; simpl in *; congruence).
  all: try (destruct (inConn s); simpl in *; congruence).
  all: try (rewrite Hcl in *; simplify_eq/=; done).
Qed.

(** X16. A closed connection stays as it is: no step of any goroutine
    reopens it or adds to the bytes it has received. *)
Theorem closed_connection_stays_as_it_is sched s name c :
  conn name s = Some c -> closed c = true ->
  conn name (run cp RequestWrite addr sched s) = Some c.
Proof.
  revert s. induction sched as [|ch sched IH]; intros s Hc Hcl; [done|].
  rewrite run_cons. apply IH; [|done]. by apply step_conn_closed.
Qed.

Lemma requestsRead_app l1 l2 :
  requestsRead (l1 ++ l2) = requestsRead l1 ++ requestsRead l2.
Proof. unfold requestsRead. by rewrite reads_app, omap_app. Qed.

Lemma forwarded_app l1 l2 : forwarded (l1 ++ l2) = forwarded l1 ++ forwarded l2.
Proof. unfold forwarded. by rewrite upstreamWrites_app, omap_app. Qed.

Lemma stepCopier_forward n i s :
  requestsRead (log (stepCopier n i s)) = requestsRead (log s) ∧
  forwarded (log (stepCopier n i s)) = forwarded (log s).
Proof.
  tunnel_unfold.
  tunnel_cases; rewrite ?requestsRead_app, ?forwarded_app; simpl; by rewrite ?app_nil_r.
Qed.



Lemma sourceOf_S n : sourceOf (S n) = sinkOf n ∧ sinkOf (S n) = sourceOf n.
Proof. unfold sourceOf, sinkOf. rewrite Nat.even_succ, <- Nat.negb_even. by destruct (Nat.even n). Qed.

Lemma even_double_minus (len f : nat) : (len + 2 = 2 * f)%nat -> Nat.even len = true.
Proof.
  intros H. apply Nat.even_spec. exists (f - 1)%nat. lia.
Qed.

Lemma paired_insert l n t p :
  paired l -> l !! n = Some t ->
  paired (<[n := {| src := src t; dst := dst t; pc := p |}]> l).
Proof.
  intros Hl Hn m t' Hm. destruct (decide (n = m)) as [<-|Hne].
  - rewrite list_lookup_insert_eq in Hm by (by eapply lookup_lt_Some).
    injection Hm as <-. simpl. by apply Hl.
  - rewrite list_lookup_insert_ne in Hm by done. by apply Hl.
Qed.

Lemma paired_pipe l :
  paired l -> Nat.even (length l) = true ->
  paired (l ++ [ {| src := ConnIn; dst := ConnOut; pc := CopyRead |};
                 {| src := ConnOut; dst := ConnIn; pc := CopyRead |} ]).
Proof.
  intros Hl Heven m t Hm.
  apply lookup_app_Some in Hm as [Hm|[Hge Hm]]; [by apply Hl|].
  assert (sourceOf (length l) = ConnIn ∧ sinkOf (length l) = ConnOut) as [Hs Hd]
    by (unfold sourceOf, sinkOf; by rewrite Heven).
  destruct (m - length l)%nat as [|[|k]] eqn:Hk; simpl in Hm; [| |done].
  - injection Hm as <-. replace m with (length l) by lia. done.
  - injection Hm as <-. replace m with (S (length l)) by lia.
    destruct (sourceOf_S (length l)) as [-> ->]. by rewrite Hs, Hd.
Qed.

Lemma closes_snoc (l : list Action) a :
  (forall n c, In (Closed (Copier n) c) l -> c = sourceOf n) ->
  (forall n c, a = Closed (Copier n) c -> c = sourceOf n) ->
  forall n c, In (Closed (Copier n) c) (l ++ [a]) -> c = sourceOf n.
Proof.
  intros Hl Ha n c [Hin|[Heq|[]]]%in_app_iff; eauto.
Qed.

Lemma pairsInv_stepCopier n i s :
  pairsInv s -> pairsInv (stepCopier n i s).
Proof.
  intros (Hp & Hlen & Hcl). unfold pairsInv.
  destruct (stepCopier_decoder n i s) as [Hd _].
  destruct (stepCopier_forward n i s) as [_ Hf]. rewrite Hd, Hf. clear Hd Hf.
  unfold stepCopier.
  destruct (copiers s !! n) as [t|] eqn:Ht; [|done].
  destruct (Hp n t Ht) as [Hsrc Hdst].
  destruct (pc t) as [|data| |]; [| | |done].
  - (* the read *)
    destruct (conn (src t) s); [|done].
    destruct (chunk i) as [data| |e]; [destruct (String.eqb data "")|..]; simpl.
    all: rewrite ?length_insert.
    all: split; [by (try apply paired_insert)|split; [done|]].
    all: apply closes_snoc; [done|]; intros; discriminate.
  - (* the write *)
    unfold write. destruct (conn (dst t) s) as [v|]; [|done].
    destruct (connWrite data (limit i) v) as [[got ok] v']. simpl.
    assert (crashed (withConn (dst t) v' s) = crashed s) as -> by (by destruct (dst t)).
    assert (copiers (withConn (dst t) v' s) = copiers s) as Hc by (by destruct (dst t)).
    assert (log (withConn (dst t) v' s) = log s) as Hl by (by destruct (dst t)).
    destruct (crashed s); [|destruct ok]; simpl; rewrite ?length_insert, Hc, Hl.
    all: split; [by (try apply paired_insert)|split; [done|]].
    all: apply closes_snoc; [done|]; intros; discriminate.
  - (* the close of the source *)
    unfold close. destruct (conn (src t) s) as [v|]; [|done]. simpl.
    assert (crashed (withConn (src t) (connClose v) s) = crashed s) as ->
      by (by destruct (src t)).
    assert (copiers (withConn (src t) (connClose v) s) = copiers s) as Hc
      by (by destruct (src t)).
    assert (log (withConn (src t) (connClose v) s) = log s) as Hl by (by destruct (src t)).
    destruct (crashed s); simpl; rewrite ?length_insert, Hc, Hl.
    all: split; [by (try apply paired_insert)|split; [done|]].
    all: apply closes_snoc; [done|]; intros ? ? [= <- <-]; done.
Qed.

Lemma pairsInv_step ch s :
  pairsInv s -> pairsInv (step cp RequestWrite addr ch s).
Proof.
  intros Hinv. unfold step. destruct (crashed s) eqn:Hcr; [done|].
  destruct ch as [i|n i]; [|by apply pairsInv_stepCopier].
  destruct Hinv as (Hp & Hlen & Hcl). unfold pairsInv, stepDecoder.
  destruct (decoder s) as [[| msg | msg | q | |]|] eqn:Hd; [..|by rewrite Hd|by rewrite Hd].
  - (* the read *)
    destruct (request i); simpl; rewrite forwarded_app;
      change (forwarded [ReadRequest _]) with (@nil string); rewrite app_nil_r;
      (split; [done|split; [done|]]); apply closes_snoc; try done; intros; discriminate.
  - (* connOut.Close() *)
    unfold close, conn. destruct (outConn s) as [c|]; simpl; rewrite ?Hcr; simpl.
    2: { unfold crash. simpl. by rewrite Hd. }
    rewrite forwarded_app. change (forwarded [Closed Decoder ConnOut]) with (@nil string).
    rewrite app_nil_r. split; [done|split; [done|]].
    apply closes_snoc; [done|]. intros; discriminate.
  - (* respondBadGateway *)
    tunnel_unfold. simpl. destruct (alive (inConn s)); destruct (limit i); simpl.
    all: rewrite !forwarded_app;
      change (forwarded [Wrote Decoder ConnIn _ _]) with (@nil string);
      change (forwarded [Closed Decoder ConnIn]) with (@nil string);
      rewrite !app_nil_r.
    all: split; [done|split; [done|]].
    all: apply closes_snoc; [apply closes_snoc; [done|]|]; intros; discriminate.
  - (* req.Write(connOut) *)
    unfold writeRequest, write, conn. destruct (outConn s) as [c|]; simpl.
    2: { destruct (bodyError i) as [[m e]|]; unfold crash; simpl; by rewrite Hd. }
    destruct (bodyError i) as [[m e]|].
    + destruct (connWrite (substring 0 m (RequestWrite q)) (limit i) c) as [[got ok] c'].
      simpl. rewrite Hcr. simpl. rewrite !forwarded_app.
      change (forwarded [ReadChunk Decoder ConnIn (ChunkErr e)]) with (@nil string).
      change (forwarded [Wrote Decoder ConnOut (RequestWrite q) got]) with [RequestWrite q].
      rewrite app_nil_r, length_app. simpl. split; [done|split; [lia|]].
      apply closes_snoc; [apply closes_snoc; [done|]|]; intros; discriminate.
    + destruct (connWrite (RequestWrite q) (limit i) c) as [[got ok] c']. simpl.
      rewrite Hcr. simpl. rewrite forwarded_app.
      change (forwarded [Wrote Decoder ConnOut (RequestWrite q) got]) with [RequestWrite q].
      rewrite length_app. simpl. split; [done|split; [lia|]].
      apply closes_snoc; [done|]. intros; discriminate.
  - (* pipe *)
    simpl. rewrite length_app. simpl. split; [|split; [lia|done]].
    apply paired_pipe; [done|]. by apply (even_double_minus _ _ Hlen).
Qed.

Lemma pairsInv_run connIn lim sched :
  pairsInv (run cp RequestWrite addr sched (handleClientMITM cp addr connIn lim)).
Proof.
  assert (pairsInv (handleClientMITM cp addr connIn lim)) as H0.
  { destruct (handleClientMITM_init connIn lim) as (Hd & Hc & _ & _ & _ & Hup & Hcl).
    unfold pairsInv, forwarded. rewrite Hd, Hc, Hup. split; [by intros n t|].
    split; [done|]. intros n c H. by destruct (Hcl n c). }
  revert H0. generalize (handleClientMITM cp addr connIn lim).
  induction sched as [|ch sched IH]; intros s H; [done|].
  rewrite run_cons. by apply IH, pairsInv_step.
Qed.

(** X18. In every interleaving the copy goroutines come in pairs, two for
    each request written upstream once [pipe] has been called for it: the
    goroutines with an even number copy from the local connection to the
    upstream one, those with an odd number the other way. *)
Theorem copiers_come_in_pairs connIn lim sched :
  paired (copiers (run cp RequestWrite addr sched (handleClientMITM cp addr connIn lim))) ∧
  (length (copiers (run cp RequestWrite addr sched (handleClientMITM cp addr connIn lim)))
   + match decoder (run cp RequestWrite addr sched (handleClientMITM cp addr connIn lim)) with
     | Some AtPipe => 2
     | _ => 0
     end
   = 2 * length (forwarded (log (run cp RequestWrite addr sched
                                   (handleClientMITM cp addr connIn lim)))))%nat.
Proof.
  destruct (pairsInv_run connIn lim sched) as (Hp & Hn & _). by split.
Qed.

(** X19. In every interleaving, a copy goroutine closes no connection but
    the one it reads from. *)
Theorem copier_closes_only_its_source connIn lim sched n c :
  In (Closed (Copier n) c)
     (log (run cp RequestWrite addr sched (handleClientMITM cp addr connIn lim))) ->
  c = sourceOf n.
Proof.
  destruct (pairsInv_run connIn lim sched) as (_ & _ & Hc). apply Hc.
Qed.

End MoreTunnelFacts.

(** X14 at work on the tunnel of [CONNECT origin.example:443]. *)
Lemma tunnel_never_panics_witness :
  crashed (run Sample.reachable Sample.requestWrite "origin.example:443"
             Sample.hangingUp (Sample.tunnel Sample.reachable)) = false.
Proof.
  apply (tunnel_never_panics Sample.reachable Sample.requestWrite "origin.example:443"
           Sample.freshConn None Sample.hangingUp Sample.freshConn).
  reflexivity.
Defined.

(** X15 at work: the upstream proxy cannot be reached and a request
    arrives all the same. *)
Lemma failed_dial_panics_on_first_request_witness :
  crashed (run Sample.unreachable Sample.requestWrite "origin.example:443"
             [ RunDecoder (Sample.input (ReadOk Sample.getIndex) ChunkEOF);
               RunDecoder Sample.eof ]
             (Sample.tunnel Sample.unreachable)) = true.
Proof.
  apply (proj2 (failed_dial_panics_on_first_request Sample.unreachable Sample.requestWrite
                  "origin.example:443" Sample.freshConn None
                  (Sample.input (ReadOk Sample.getIndex) ChunkEOF) Sample.eof []
                  eq_refl)).
  intros H. vm_compute in H. discriminate H.
Defined.

(** X16 at work: the local client has gone away, and the bytes that come
    from upstream afterwards do not reach its connection. *)
Lemma closed_connection_stays_as_it_is_witness :
  conn ConnIn
    (run Sample.reachable Sample.requestWrite "origin.example:443"
       [ RunCopier 1 (Sample.input ReadEOF (Chunk "HTTP/1.1 200 OK")); RunCopier 1 Sample.eof ]
       (run Sample.reachable Sample.requestWrite "origin.example:443"
          Sample.hangingUp (Sample.tunnel Sample.reachable)))
  = Some {| closed := true; broken := false; received := "" |}.
Proof.
  apply closed_connection_stays_as_it_is.
  - vm_compute. reflexivity.
  - reflexivity.
Defined.

(** X19 at work: the local client goes away and the first copier closes
    the local connection. *)
Lemma copier_closes_only_its_source_witness :
  In (Closed (Copier 0) ConnIn)
     (log (run Sample.reachable Sample.requestWrite "origin.example:443"
             Sample.hangingUp (Sample.tunnel Sample.reachable))) ∧
  ConnIn = sourceOf 0.
Proof.
  assert (In (Closed (Copier 0) ConnIn)
            (log (run Sample.reachable Sample.requestWrite "origin.example:443"
                    Sample.hangingUp (Sample.tunnel Sample.reachable)))) as H.
  { vm_compute. repeat first [left; reflexivity | right]. }
  split; [exact H|].
  exact (copier_closes_only_its_source Sample.reachable Sample.requestWrite
           "origin.example:443" Sample.freshConn None Sample.hangingUp 0 ConnIn H).
Defined.

(** ** The goroutine that ends an orphaned process *)

(** X20. The goroutine started by [init] ends the process, with code 0,
    exactly when [os.FindProcess] returns a process for [parentPID] and the
    wait for it returns; it ends the process in no other way.  This holds
    for [parentPID] 0 as well, the only case in which the goroutine first
    logs that it is not terminating when orphaned for lack of a parent
    PID. *)
Theorem orphan_exits_when_parent_ends os parentPID :
  ((orphan.init os parentPID).2 = orphan.Exited 0 <->
   exists parent, orphan.FindProcess os parentPID = Some parent ∧
                  orphan.waitReturns os parent = true) ∧
  (forall code, In (orphan.Exit code) (orphan.init os parentPID).1 <->
                (orphan.init os parentPID).2 = orphan.Exited code) ∧
  (In (orphan.Errorf "No parent PID specified, not terminating when orphaned" [])
      (orphan.init os parentPID).1 <-> parentPID = 0).
Proof.
  unfold orphan.init.
  destruct (Z.eqb_spec parentPID 0) as [H0|H0];
    destruct (orphan.FindProcess os parentPID) as [parent|];
    [destruct (orphan.waitReturns os parent) eqn:Hw| |
     destruct (orphan.waitReturns os parent) eqn:Hw| ]; simpl.
  all: split; [|split].
  all: try (split; [intros H; try discriminate H|intros H]).
  all: try (intros code; split; [intros H|intros H]).
  all: try done.
  all: try (by eexists).
  all: try (destruct H as (p & Hp & Hp'); congruence).
  all: try (by repeat (destruct H as [H|H]; try discriminate H)).
  all: try (left; reflexivity).
  all: try (repeat (destruct H as [H|H]; try discriminate H); [|done]; by injection H as <-).
  all: try (injection H as <-; tauto).
Qed.
